(** * The Instana React Native agent: the declared API surface

    [src/index.d.ts] is a TypeScript declaration file: two string-literal
    unions, one numeric enum, the [InstanaInterface] method table and the
    [SetupOptions] / [EventOptions] option records.  It has no executable
    body, so what is embedded here is

    - the declarations themselves, member by member and in source order,
      as data ([HTTPCaptureConfig], [RateLimits], [SetupOptions], ...),
      together with the JSDoc tags the declarations carry ([@default],
      [Range:], [@returns], "iOS only");
    - the meaning TypeScript gives to them: which JavaScript values a
      declared type admits ([conforms]), which argument lists a signature
      accepts ([accepts_args]), and when an object provides an interface
      ([implements]).  *)

From Stdlib Require Import List String Ascii ZArith Bool Lia.
From Stdlib Require Import Floats.SpecFloat.
Import ListNotations.
Open Scope string_scope.

Set Warnings "-register-all".

(** ** JavaScript values *)

(** A JS [number] is an IEEE 754 binary64 value. *)
Definition number : Type := spec_float.

Definition number_of_Z (z : Z) : number :=
  binary_normalize 53 1024 z 0 false.

Definition number_eqb (x y : number) : bool :=
  match x, y with
  | S754_zero s, S754_zero s' => Bool.eqb s s'
  | S754_infinity s, S754_infinity s' => Bool.eqb s s'
  | S754_nan, S754_nan => true
  | S754_finite s m e, S754_finite s' m' e' =>
      Bool.eqb s s' && Pos.eqb m m' && Z.eqb e e'
  | _, _ => false
  end.

(** Runtime values that cross the bridge.  A promise is represented by the
    way it settles: [VResolved v] fulfils with [v], [VRejected e] rejects
    with the reason [e]. *)
Inductive value : Type :=
| VUndefined
| VBool (b : bool)
| VNum (x : number)
| VStr (s : string)
| VArr (items : list value)
| VObj (props : list (string * value))
| VResolved (v : value)
| VRejected (reason : value).

Definition is_undefined (v : value) : bool :=
  match v with VUndefined => true | _ => false end.

(** Property lookup: the first binding of the key. *)
Fixpoint get_prop (k : string) (props : list (string * value)) : option value :=
  match props with
  | [] => None
  | (k', v) :: rest => if String.eqb k k' then Some v else get_prop k rest
  end.

(** ** Declared types *)

Record enum_decl : Type := {
  enum_name : string;
  enum_members : list (string * Z)
}.

Fixpoint enum_value (members : list (string * Z)) (name : string) : option Z :=
  match members with
  | [] => None
  | (n, z) :: rest => if String.eqb name n then Some z else enum_value rest name
  end.

Inductive ty : Type :=
| TString
| TNumber
| TBoolean
| TVoid
| TLiteral (s : string)
| TUnion (a b : ty)
| TArray (elt : ty)
| TRecord (elt : ty)
| TEnum (e : enum_decl)
| TPromise (res : ty)
| TObject (members : list (string * (bool * ty))).

(** An object type is weak when it declares properties and all of them are
    optional. *)
Definition is_weak (members : list (string * (bool * ty))) : bool :=
  match members with
  | [] => false
  | _ :: _ => forallb (fun m => fst (snd m)) members
  end.

(** The object carries a property that the type declares. *)
Definition shares_property (members : list (string * (bool * ty)))
    (props : list (string * value)) : bool :=
  existsb (fun kv => existsb (fun m => String.eqb (fst kv) (fst m)) members)
    props.

(** The weak-type rule: an object that has properties, none of which a weak
    type declares, is not of that type. *)
Definition weak_ok (members : list (string * (bool * ty)))
    (props : list (string * value)) : bool :=
  negb (is_weak members)
  || match props with
     | [] => true
     | _ :: _ => shares_property members props
     end.

(** [conforms t v]: the value [v] is admitted by the declared type [t].
    Object types are structural: every declared property must be present
    with a conforming value unless it is marked optional ([?]), in which
    case it may also be missing or [undefined]; a weak type moreover asks
    for one of its properties when the object has any ([weak_ok]).
    Properties that the type does not declare are otherwise left alone:
    the check is on values, and the refusal of an excess property is one
    tsc makes on an object literal written in place, not on the object. *)
Fixpoint conforms (t : ty) (v : value) {struct t} : bool :=
  match t with
  | TString => match v with VStr _ => true | _ => false end
  | TNumber => match v with VNum _ => true | _ => false end
  | TBoolean => match v with VBool _ => true | _ => false end
  | TVoid => is_undefined v
  | TLiteral s => match v with VStr s' => String.eqb s s' | _ => false end
  | TUnion a b => conforms a v || conforms b v
  | TArray elt =>
      match v with VArr items => forallb (conforms elt) items | _ => false end
  | TRecord elt =>
      match v with
      | VObj props => forallb (fun kv => conforms elt (snd kv)) props
      | _ => false
      end
  | TEnum e =>
      (* the values of the declared members *)
      match v with
      | VNum x =>
          existsb (fun m => number_eqb x (number_of_Z (snd m))) (enum_members e)
      | _ => false
      end
  | TPromise res =>
      match v with
      | VResolved r => conforms res r
      | VRejected _ => true
      | _ => false
      end
  | TObject members =>
      match v with
      | VObj props =>
          (fix each (ms : list (string * (bool * ty))) : bool :=
             match ms with
             | [] => true
             | (k, (opt, t')) :: rest =>
                 match get_prop k props with
                 | None => opt
                 | Some x => conforms t' x || (opt && is_undefined x)
                 end && each rest
             end) members
          && weak_ok members props
      | _ => false
      end
  end.

Definition is_promise (t : ty) : bool :=
  match t with TPromise _ => true | _ => false end.

(** ** The declarations of [src/index.d.ts] *)

Inductive platform : Type := IOS | Android.

(** [export type HTTPCaptureConfig = 'AUTO' | 'NONE';] *)
Definition HTTPCaptureConfig : ty :=
  TUnion (TLiteral "AUTO") (TLiteral "NONE").

(** [export type SuspendReportingType = 'NEVER' | 'LOW_BATTERY' |
    'CELLULAR_CONNECTION' | 'LOW_BATTERY_OR_CELLULAR_CONNECTION';] *)
Definition SuspendReportingType : ty :=
  TUnion (TLiteral "NEVER")
    (TUnion (TLiteral "LOW_BATTERY")
       (TUnion (TLiteral "CELLULAR_CONNECTION")
          (TLiteral "LOW_BATTERY_OR_CELLULAR_CONNECTION"))).

(** [export enum RateLimits { DEFAULT_LIMITS = 0, MID_LIMITS = 1,
    MAX_LIMITS = 2 }] *)
Definition RateLimits : enum_decl := {|
  enum_name := "RateLimits";
  enum_members :=
    [ ("DEFAULT_LIMITS", 0%Z); ("MID_LIMITS", 1%Z); ("MAX_LIMITS", 2%Z) ]
|}.

(** The runtime value of [E.member]. *)
Definition member_value (e : enum_decl) (name : string) : option value :=
  option_map (fun z => VNum (number_of_Z z)) (enum_value (enum_members e) name).

(** What a [@default] tag says. *)
Inductive default_doc : Type :=
| DefaultValue (v : value)
| DefaultOn (p : platform) (v : value)
| DefaultMember (e : enum_decl) (member : string) (shown : Z).

(** A property signature of an option record, with its JSDoc tags. *)
Record property : Type := {
  p_name : string;
  p_optional : bool;
  p_type : ty;
  p_default : option default_doc;
  p_range : option (Z * Z)
}.

Definition prop (name : string) (optional : bool) (t : ty)
    (d : option default_doc) : property :=
  {| p_name := name; p_optional := optional; p_type := t;
     p_default := d; p_range := None |}.

Definition signature (p : property) : string * (bool * ty) :=
  (p_name p, (p_optional p, p_type p)).

Definition interface_type (ps : list property) : ty :=
  TObject (map signature ps).

(** One declared property checked against an object. *)
Definition property_ok (props : list (string * value)) (p : property) : bool :=
  match get_prop (p_name p) props with
  | None => p_optional p
  | Some x => conforms (p_type p) x || (p_optional p && is_undefined x)
  end.

(** [export interface SetupOptions] *)
Definition SetupOptions : list property :=
  [ prop "collectionEnabled" true TBoolean
      (Some (DefaultValue (VBool true)));
    prop "enableCrashReporting" true TBoolean
      (Some (DefaultValue (VBool false)));
    {| p_name := "slowSendInterval"; p_optional := true; p_type := TNumber;
       p_default := Some (DefaultValue (VNum (number_of_Z 0)));
       p_range := Some (2%Z, 3600%Z) |};
    prop "usiRefreshTimeIntervalInHrs" true TNumber
      (Some (DefaultValue (VNum (number_of_Z (-1)))));
    prop "httpCaptureConfig" true HTTPCaptureConfig
      (Some (DefaultValue (VStr "AUTO")));
    prop "suspendReporting" true SuspendReportingType
      (Some (DefaultOn Android (VStr "LOW_BATTERY")));
    prop "dropBeaconReporting" true TBoolean
      (Some (DefaultValue (VBool false)));
    prop "rateLimits" true (TUnion (TEnum RateLimits) TNumber)
      (Some (DefaultMember RateLimits "DEFAULT_LIMITS" 0));
    prop "trustDeviceTiming" true TBoolean
      (Some (DefaultValue (VBool false)));
    prop "enableW3CHeaders" true TBoolean
      (Some (DefaultValue (VBool false)));
    prop "queryTrackedDomainList" true (TArray TString) None ].

(** [export interface EventOptions] *)
Definition EventOptions : list property :=
  [ prop "startTime" true TNumber None;
    prop "duration" true TNumber None;
    prop "viewName" true TString None;
    prop "meta" true (TRecord TString) None;
    prop "backendTracingId" true TString None;
    prop "customMetric" true TNumber None ].

Record parameter : Type := {
  par_name : string;
  par_optional : bool;
  par_type : ty
}.

(** A method signature of an interface.  [m_optional] is the [?] after the
    member name; [m_resolves_to] is the literal a [@returns] tag names as
    the fulfilment value; [m_only] is a "(... only)" platform remark. *)
Record method : Type := {
  m_name : string;
  m_optional : bool;
  m_params : list parameter;
  m_returns : ty;
  m_resolves_to : option string;
  m_only : option platform
}.

Definition required (name : string) (t : ty) : parameter :=
  {| par_name := name; par_optional := false; par_type := t |}.

Definition optional (name : string) (t : ty) : parameter :=
  {| par_name := name; par_optional := true; par_type := t |}.

(** [export interface InstanaInterface] *)
Definition InstanaInterface : list method :=
  [ {| m_name := "setup"; m_optional := false;
       m_params := [ required "key" TString;
                     required "reportingUrl" TString;
                     optional "options" (interface_type SetupOptions) ];
       m_returns := TVoid; m_resolves_to := None; m_only := None |};
    {| m_name := "setCollectionEnabled"; m_optional := false;
       m_params := [ optional "enabled" TBoolean ];
       m_returns := TVoid; m_resolves_to := None; m_only := None |};
    {| m_name := "setView"; m_optional := false;
       m_params := [ required "viewName" TString ];
       m_returns := TVoid; m_resolves_to := None; m_only := None |};
    {| m_name := "getSessionID"; m_optional := false;
       m_params := [];
       m_returns := TPromise TString; m_resolves_to := None; m_only := None |};
    {| m_name := "setUserID"; m_optional := false;
       m_params := [ required "userID" TString ];
       m_returns := TVoid; m_resolves_to := None; m_only := None |};
    {| m_name := "setUserName"; m_optional := false;
       m_params := [ required "userName" TString ];
       m_returns := TVoid; m_resolves_to := None; m_only := None |};
    {| m_name := "setUserEmail"; m_optional := false;
       m_params := [ required "userEmail" TString ];
       m_returns := TVoid; m_resolves_to := None; m_only := None |};
    {| m_name := "setMeta"; m_optional := false;
       m_params := [ required "key" TString; required "value" TString ];
       m_returns := TVoid; m_resolves_to := None; m_only := None |};
    {| m_name := "setIgnoreURLsByRegex"; m_optional := false;
       m_params := [ required "regexArray" (TArray TString) ];
       m_returns := TPromise TString;
       m_resolves_to := Some "Success"; m_only := None |};
    {| m_name := "setRedactHTTPQueryByRegex"; m_optional := false;
       m_params := [ required "regexArray" (TArray TString) ];
       m_returns := TPromise TString;
       m_resolves_to := Some "Success"; m_only := None |};
    {| m_name := "setCaptureHeadersByRegex"; m_optional := false;
       m_params := [ required "regexArray" (TArray TString) ];
       m_returns := TPromise TString;
       m_resolves_to := Some "Success"; m_only := None |};
    {| m_name := "reportEvent"; m_optional := false;
       m_params := [ required "eventName" TString;
                     optional "options" (interface_type EventOptions) ];
       m_returns := TVoid; m_resolves_to := None; m_only := None |};
    {| m_name := "getViewName"; m_optional := true;
       m_params := [];
       m_returns := TPromise TString;
       m_resolves_to := None; m_only := Some IOS |};
    {| m_name := "getCollectionEnabled"; m_optional := true;
       m_params := [];
       m_returns := TPromise TBoolean;
       m_resolves_to := None; m_only := Some IOS |} ].

(** [declare const Instana: InstanaInterface; export default Instana;]:
    the declared type of the default export. *)
Definition Instana : list method := InstanaInterface.

(** [export type InstanaAgent = InstanaInterface;] *)
Definition InstanaAgent : list method := InstanaInterface.

(** [declare module 'react-native' { export interface NativeModules {
    Instana: InstanaInterface; } }] *)
Definition NativeModules : list (string * list method) :=
  [ ("Instana", InstanaInterface) ].

Fixpoint find_method (name : string) (ms : list method) : option method :=
  match ms with
  | [] => None
  | m :: rest => if String.eqb name (m_name m) then Some m else find_method name rest
  end.

Fixpoint find_property (name : string) (ps : list property) : option property :=
  match ps with
  | [] => None
  | p :: rest =>
      if String.eqb name (p_name p) then Some p else find_property name rest
  end.

(** ** Checking a call against a signature *)

(** An argument list is accepted when every supplied argument conforms to
    its parameter (an optional parameter also takes [undefined]), no
    required parameter is left without an argument, and there is no
    argument beyond the last parameter. *)
Fixpoint accepts_args (ps : list parameter) (args : list value) : bool :=
  match ps, args with
  | [], [] => true
  | [], _ :: _ => false
  | p :: ps', [] => par_optional p && accepts_args ps' []
  | p :: ps', a :: args' =>
      (conforms (par_type p) a || (par_optional p && is_undefined a))
      && accepts_args ps' args'
  end.

(** [call_accepted I name args]: the plain call [obj.name(args)] on an
    object of type [I].  [I] must declare [name] as a required member (an
    optional member may be [undefined] and cannot be called like that) and
    its signature must accept [args]. *)
Definition call_accepted (I : list method) (name : string)
    (args : list value) : bool :=
  match find_method name I with
  | Some m => negb (m_optional m) && accepts_args (m_params m) args
  | None => false
  end.

(** [guarded_call_accepted I name args]: the call made after the member was
    tested for, [obj.name?.(args)] or [if (obj.name) obj.name(args)]. *)
Definition guarded_call_accepted (I : list method) (name : string)
    (args : list value) : bool :=
  match find_method name I with
  | Some m => accepts_args (m_params m) args
  | None => false
  end.

(** [result_ok t v]: a method whose declared result is [t] may hand back
    [v].  A method declared [void] may hand back anything, the caller is
    not to use it; any other result must be of the declared type. *)
Definition result_ok (t : ty) (v : value) : bool :=
  match t with
  | TVoid => true
  | _ => conforms t v
  end.

(** A result type has a failure channel when it admits a rejected
    promise. *)
Definition admits_rejection (t : ty) : Prop :=
  exists reason, conforms t (VRejected reason) = true.

(** The value a [@default] tag stands for on a given platform. *)
Definition default_value (pl : platform) (d : default_doc) : option value :=
  match d with
  | DefaultValue v => Some v
  | DefaultOn p v =>
      match p, pl with
      | IOS, IOS | Android, Android => Some v
      | _, _ => None
      end
  | DefaultMember e member _ => member_value e member
  end.

(** A documented [Range: lo-hi], as a test on numbers. *)
Definition in_range (r : Z * Z) (x : number) : bool :=
  SFleb (number_of_Z (fst r)) x && SFleb x (number_of_Z (snd r)).

(** ** Objects that provide the interface *)

(** The native module behind the bridge is a table from member names to
    methods; a method takes the marshalled arguments and the agent's state
    and gives back the new state and what the caller gets. *)
Section Implementation.

Variable State : Type.

Definition native_method : Type := list value -> State -> State * value.

Definition implementation : Type := string -> option native_method.

(** Calling a member: [None] when the object has no such member. *)
Definition invoke (impl : implementation) (name : string)
    (args : list value) (st : State) : option (State * value) :=
  match impl name with
  | Some f => Some (f args st)
  | None => None
  end.

(** [impl] provides [I]: a member may be missing only where [I] marks it
    optional, and a present member answers every accepted call with a
    result its declared result type allows ([result_ok]). *)
Definition implements (I : list method) (impl : implementation) : Prop :=
  forall m, In m I ->
    match impl (m_name m) with
    | None => m_optional m = true
    | Some f =>
        forall args st, accepts_args (m_params m) args = true ->
          result_ok (m_returns m) (snd (f args st)) = true
    end.

(** The same object with some members taken away. *)
Definition without (names : list string) (impl : implementation)
    : implementation :=
  fun name => if existsb (String.eqb name) names then None else impl name.

(** The same object with the member [name] replaced by [g]. *)
Definition override (name : string) (g : native_method)
    (impl : implementation) : implementation :=
  fun n => if String.eqb n name then Some g else impl n.

End Implementation.

Arguments invoke {State} impl name args st.
Arguments implements {State} I impl.
Arguments without {State} names impl name.
Arguments override {State} name g impl n.

(** ** A native backend *)

(** Modelled from the spec: the native iOS / Android agent the declared
    methods delegate to is not part of [src/].  This stand-in keeps only
    what the declared surface lets a caller observe: the session id, the
    current view and the collection flag.  The regex compiler of the
    platform is the parameter [compiles]. *)
Record agent_state : Type := {
  session_id : string;
  current_view : string;
  collection_enabled : bool
}.

(** Modelled from the spec: a "native-originated error value". *)
Definition native_error (message : string) : value :=
  VObj [ ("message", VStr message) ].

(** The strings of a marshalled array. *)
Fixpoint strings_of (items : list value) : list string :=
  match items with
  | [] => []
  | VStr s :: rest => s :: strings_of rest
  | _ :: rest => strings_of rest
  end.

(** Modelled from the spec: "promise resolving to a literal success marker;
    rejects with native error on invalid pattern". *)
Definition set_patterns (compiles : string -> bool)
    : native_method agent_state :=
  fun args st =>
    match args with
    | VArr items :: _ =>
        if forallb compiles (strings_of items)
        then (st, VResolved (VStr "Success"))
        else (st, VRejected (native_error "invalid regular expression"))
    | _ => (st, VRejected (native_error "regexArray is not an array"))
    end.

(** Modelled from the spec: fire-and-forget methods give the caller nothing
    back. *)
Definition fire_and_forget (update : list value -> agent_state -> agent_state)
    : native_method agent_state :=
  fun args st => (update args st, VUndefined).

(** A boolean property of the first argument in [options], [dflt] when it
    is not given. *)
Definition bool_option (name : string) (dflt : bool) (options : list value)
    : bool :=
  match options with
  | VObj props :: _ =>
      match get_prop name props with
      | Some (VBool b) => b
      | _ => dflt
      end
  | _ => dflt
  end.

(** Modelled from the spec: [setup] takes the collection flag from
    [options.collectionEnabled], "@default true". *)
Definition on_setup (args : list value) (st : agent_state) : agent_state :=
  {| session_id := session_id st;
     current_view := current_view st;
     collection_enabled :=
       bool_option "collectionEnabled" true (skipn 2 args) |}.

(** Modelled from the spec: "setCollectionEnabled(enabled?): boolean,
    defaults true". *)
Definition on_setCollectionEnabled (args : list value) (st : agent_state)
    : agent_state :=
  {| session_id := session_id st;
     current_view := current_view st;
     collection_enabled :=
       match args with VBool b :: _ => b | _ => true end |}.

(** Modelled from the spec: [setView] records the current view name. *)
Definition on_setView (args : list value) (st : agent_state) : agent_state :=
  {| session_id := session_id st;
     current_view :=
       match args with VStr v :: _ => v | _ => current_view st end;
     collection_enabled := collection_enabled st |}.

(** Modelled from the spec: user data, metadata and events go to the
    backend and leave nothing a caller can read back. *)
Definition unchanged (args : list value) (st : agent_state) : agent_state := st.

(** Modelled from the spec: the method table of the native module.
    [getViewName] and [getCollectionEnabled] exist on iOS only. *)
Definition native_table (pl : platform) (compiles : string -> bool)
    : list (string * native_method agent_state) :=
  [ ("setup", fire_and_forget on_setup);
    ("setCollectionEnabled", fire_and_forget on_setCollectionEnabled);
    ("setView", fire_and_forget on_setView);
    ("getSessionID", fun _ st => (st, VResolved (VStr (session_id st))));
    ("setUserID", fire_and_forget unchanged);
    ("setUserName", fire_and_forget unchanged);
    ("setUserEmail", fire_and_forget unchanged);
    ("setMeta", fire_and_forget unchanged);
    ("setIgnoreURLsByRegex", set_patterns compiles);
    ("setRedactHTTPQueryByRegex", set_patterns compiles);
    ("setCaptureHeadersByRegex", set_patterns compiles);
    ("reportEvent", fire_and_forget unchanged) ]
  ++ match pl with
     | IOS =>
         [ ("getViewName",
            fun _ st => (st, VResolved (VStr (current_view st))));
           ("getCollectionEnabled",
            fun _ st => (st, VResolved (VBool (collection_enabled st)))) ]
     | Android => []
     end.

Fixpoint lookup_method {State : Type} (name : string)
    (table : list (string * native_method State))
    : option (native_method State) :=
  match table with
  | [] => None
  | (n, f) :: rest =>
      if String.eqb name n then Some f else lookup_method name rest
  end.

(** Modelled from the spec: the native module of platform [pl]. *)
Definition native (pl : platform) (compiles : string -> bool)
    : implementation agent_state :=
  fun name => lookup_method name (native_table pl compiles).

(** A sample pattern check for the backend: the grouping parentheses of the
    pattern are balanced. *)
Fixpoint group_depth (s : string) (depth : nat) : option nat :=
  match s with
  | EmptyString => Some depth
  | String c rest =>
      if Ascii.eqb c "("%char then group_depth rest (S depth)
      else if Ascii.eqb c ")"%char then
        match depth with
        | O => None
        | S d => group_depth rest d
        end
      else group_depth rest depth
  end.

Definition groups_balanced (s : string) : bool :=
  match group_depth s 0 with
  | Some O => true
  | _ => false
  end.

(** A state of the backend to run calls in. *)
Definition fresh_state : agent_state :=
  {| session_id := "session-1"; current_view := "Home";
     collection_enabled := true |}.

(** ** Sample values *)

(** A [SetupOptions] record with all eleven properties given. *)
Definition full_setup_options : list (string * value) :=
  [ ("collectionEnabled", VBool true);
    ("enableCrashReporting", VBool false);
    ("slowSendInterval", VNum (number_of_Z 60));
    ("usiRefreshTimeIntervalInHrs", VNum (number_of_Z (-1)));
    ("httpCaptureConfig", VStr "AUTO");
    ("suspendReporting", VStr "LOW_BATTERY");
    ("dropBeaconReporting", VBool false);
    ("rateLimits", VNum (number_of_Z 2));
    ("trustDeviceTiming", VBool false);
    ("enableW3CHeaders", VBool false);
    ("queryTrackedDomainList", VArr [ VStr "example.com" ]) ].

(** An object built from chosen properties of an option record. *)
Definition record_of (chosen : list property) (pick : property -> value)
    : list (string * value) :=
  map (fun p => (p_name p, pick p)) chosen.

(** [{ collectionEnabled: true, rateLimits: RateLimits.MAX_LIMITS }] *)
Definition setup_choice : list property :=
  filter (fun p => String.eqb (p_name p) "collectionEnabled"
                   || String.eqb (p_name p) "rateLimits") SetupOptions.

Definition setup_pick (p : property) : value :=
  if String.eqb (p_name p) "rateLimits" then VNum (number_of_Z 2)
  else VBool true.

(** [{ customMetric: 42 }] *)
Definition event_choice : list property :=
  filter (fun p => String.eqb (p_name p) "customMetric") EventOptions.

Definition event_pick (p : property) : value := VNum (number_of_Z 42).

(** The members singled out by name in the properties below. *)
Definition promise_methods : list string :=
  [ "getSessionID"; "setIgnoreURLsByRegex"; "setRedactHTTPQueryByRegex";
    "setCaptureHeadersByRegex"; "getViewName"; "getCollectionEnabled" ].

Definition regex_methods : list string :=
  [ "setIgnoreURLsByRegex"; "setRedactHTTPQueryByRegex";
    "setCaptureHeadersByRegex" ].

Definition ios_only_methods : list string :=
  [ "getViewName"; "getCollectionEnabled" ].

(** The members that take one string and hand nothing back. *)
Definition string_setters : list string :=
  [ "setView"; "setUserID"; "setUserName"; "setUserEmail" ].

(** The least number of arguments a parameter list asks for. *)
Definition min_args (ps : list parameter) : nat :=
  List.length (filter (fun p => negb (par_optional p)) ps).

(** A plain object whose values are all strings. *)
Definition string_record (kvs : list (string * string)) : value :=
  VObj (map (fun kv => (fst kv, VStr (snd kv))) kvs).

(** * Properties *)

(** ** Auxiliary facts *)

Lemma number_eqb_eq (x y : number) : number_eqb x y = true <-> x = y.
Proof.
  split.
  - destruct x as [s|s| |s m e], y as [s'|s'| |s' m' e']; simpl;
      try discriminate; try reflexivity.
    + intros H. apply Bool.eqb_prop in H. now subst.
    + intros H. apply Bool.eqb_prop in H. now subst.
    + intros H. apply andb_true_iff in H. destruct H as [H He].
      apply andb_true_iff in H. destruct H as [Hs Hm].
      apply Bool.eqb_prop in Hs. apply Pos.eqb_eq in Hm. apply Z.eqb_eq in He.
      now subst.
  - intros <-. destruct x as [s|s| |s m e]; simpl; auto using Bool.eqb_reflx.
    now rewrite Bool.eqb_reflx, Pos.eqb_refl, Z.eqb_refl.
Qed.

(** The object case of [conforms] is [property_ok] on every declared
    property, and the weak-type rule. *)
Lemma conforms_interface (ps : list property) (props : list (string * value)) :
  conforms (interface_type ps) (VObj props)
  = forallb (property_ok props) ps && weak_ok (map signature ps) props.
Proof.
  unfold interface_type. cbn [conforms]. f_equal.
  induction ps as [|p ps IH]; cbn [map signature forallb]; [reflexivity|].
  now rewrite IH.
Qed.

Lemma get_prop_Some_In (k : string) (props : list (string * value))
    (x : value) :
  get_prop k props = Some x -> In (k, x) props.
Proof.
  induction props as [|[k' v] props IH]; cbn [get_prop]; [discriminate|].
  destruct (String.eqb k k') eqn:E.
  - intros [= <-]. apply String.eqb_eq in E. subst k'. now left.
  - intros H. right. now apply IH.
Qed.

Lemma get_prop_In (k : string) (props : list (string * value)) (v : value) :
  In (k, v) props -> exists x, get_prop k props = Some x.
Proof.
  induction props as [|[k' v'] props IH]; cbn [get_prop In]; [tauto|].
  destruct (String.eqb k k') eqn:E; [eauto|].
  intros [[= -> _]|H]; [|now apply IH].
  now rewrite String.eqb_refl in E.
Qed.

(** An object shares a property with a record when one of the declared
    names is bound in it. *)
Lemma shares_property_iff (ps : list property)
    (props : list (string * value)) :
  shares_property (map signature ps) props = true
  <-> exists p x, In p ps /\ get_prop (p_name p) props = Some x.
Proof.
  unfold shares_property. rewrite existsb_exists. split.
  - intros ([k v] & Hkv & H). apply existsb_exists in H.
    destruct H as (m & Hm & E). apply in_map_iff in Hm.
    destruct Hm as (p & <- & Hp). cbn [fst signature] in E.
    apply String.eqb_eq in E. subst k.
    destruct (get_prop_In _ _ _ Hkv) as [x Hx]. eauto.
  - intros (p & x & Hp & Hx). exists (p_name p, x).
    split; [now apply get_prop_Some_In|].
    apply existsb_exists. exists (signature p).
    split; [now apply in_map|]. apply String.eqb_refl.
Qed.

(** For a weak record the rule asks for an empty object or a shared
    property. *)
Lemma weak_ok_iff (ps : list property) (props : list (string * value)) :
  is_weak (map signature ps) = true ->
  (weak_ok (map signature ps) props = true
   <-> props = []
       \/ exists p x, In p ps /\ get_prop (p_name p) props = Some x).
Proof.
  intros Hweak. unfold weak_ok. rewrite Hweak. cbn [negb orb].
  destruct props as [|kv props].
  - split; auto.
  - rewrite shares_property_iff. split; [auto|].
    intros [H|H]; [discriminate H|exact H].
Qed.

Lemma SetupOptions_weak : is_weak (map signature SetupOptions) = true.
Proof. reflexivity. Qed.

Lemma EventOptions_weak : is_weak (map signature EventOptions) = true.
Proof. reflexivity. Qed.

Lemma weak_ok_record_of (ps chosen : list property)
    (pick : property -> value) :
  incl chosen ps -> weak_ok (map signature ps) (record_of chosen pick) = true.
Proof.
  intros Hincl. unfold weak_ok.
  destruct (is_weak (map signature ps)); [cbn [negb orb]|reflexivity].
  destruct chosen as [|p chosen]; [reflexivity|].
  change (shares_property (map signature ps)
            (record_of (p :: chosen) pick) = true).
  apply shares_property_iff. exists p, (pick p). split.
  - apply Hincl. now left.
  - cbn [record_of map get_prop]. now rewrite String.eqb_refl.
Qed.

Lemma get_prop_record_of (chosen : list property) (pick : property -> value)
    (k : string) (v : value) :
  get_prop k (record_of chosen pick) = Some v ->
  exists p, In p chosen /\ p_name p = k /\ v = pick p.
Proof.
  induction chosen as [|p chosen IH]; simpl; [discriminate|].
  destruct (String.eqb k (p_name p)) eqn:E.
  - intros [= <-]. apply String.eqb_eq in E. exists p. auto.
  - intros H. destruct (IH H) as (q & Hq & Hk & Hv). exists q. auto.
Qed.

Lemma names_identify (ps : list property) (p q : property) :
  NoDup (map p_name ps) -> In p ps -> In q ps -> p_name p = p_name q -> p = q.
Proof.
  induction ps as [|a ps IH]; simpl; [tauto|].
  intros Hnd Hp Hq Hn. inversion Hnd as [|? ? Hnotin Hnd']; subst.
  destruct Hp as [<-|Hp], Hq as [<-|Hq]; auto.
  - exfalso. apply Hnotin. rewrite Hn. now apply in_map.
  - exfalso. apply Hnotin. rewrite <- Hn. now apply in_map.
Qed.

(** In a record whose properties are all optional and distinctly named, any
    selection of properties filled with conforming values is admitted. *)
Lemma every_subset_conforms (ps chosen : list property)
    (pick : property -> value) :
  NoDup (map p_name ps) ->
  (forall p, In p ps -> p_optional p = true) ->
  incl chosen ps ->
  (forall p, In p chosen -> conforms (p_type p) (pick p) = true) ->
  conforms (interface_type ps) (VObj (record_of chosen pick)) = true.
Proof.
  intros Hnd Hopt Hincl Hpick.
  rewrite conforms_interface, (weak_ok_record_of ps chosen pick Hincl).
  rewrite andb_true_r. apply forallb_forall. intros f Hf.
  unfold property_ok.
  destruct (get_prop (p_name f) (record_of chosen pick)) as [v|] eqn:E.
  - apply get_prop_record_of in E. destruct E as (p & Hp & Hn & ->).
    assert (p = f) by (apply (names_identify ps); auto).
    subst p. rewrite (Hpick f Hp). reflexivity.
  - now apply Hopt.
Qed.

Lemma SetupOptions_names_distinct : NoDup (map p_name SetupOptions).
Proof.
  simpl. repeat (constructor; [simpl; intuition discriminate|]). constructor.
Qed.

Lemma EventOptions_names_distinct : NoDup (map p_name EventOptions).
Proof.
  simpl. repeat (constructor; [simpl; intuition discriminate|]). constructor.
Qed.

Lemma SetupOptions_all_optional (p : property) :
  In p SetupOptions -> p_optional p = true.
Proof. simpl. intuition (subst; reflexivity). Qed.

Lemma EventOptions_all_optional (p : property) :
  In p EventOptions -> p_optional p = true.
Proof. simpl. intuition (subst; reflexivity). Qed.

Lemma void_only_undefined (v : value) :
  conforms TVoid v = true -> v = VUndefined.
Proof. destruct v; simpl; intros H; try discriminate; reflexivity. Qed.

Lemma find_method_In (name : string) (I : list method) (m : method) :
  find_method name I = Some m -> In m I /\ m_name m = name.
Proof.
  induction I as [|a I IH]; simpl; [discriminate|].
  destruct (String.eqb name (m_name a)) eqn:E.
  - intros [= <-]. apply String.eqb_eq in E. auto.
  - intros H. destruct (IH H). auto.
Qed.

(** What a member declared [void] hands back is no part of the contract:
    an object stays a provider of the interface when such a member is
    replaced by a method handing back anything at all. *)
Lemma void_member_result_free {State : Type} (I : list method)
    (impl : implementation State) (name : string) (g : native_method State) :
  implements I impl ->
  (forall m, In m I -> m_name m = name -> m_returns m = TVoid) ->
  implements I (override name g impl).
Proof.
  intros Himpl Hvoid m Hin. unfold override.
  destruct (String.eqb (m_name m) name) eqn:E; [|now apply Himpl].
  apply String.eqb_eq in E. intros args st _.
  now rewrite (Hvoid m Hin E).
Qed.

Lemma void_no_rejection : ~ admits_rejection TVoid.
Proof. intros [reason H]. discriminate H. Qed.

Lemma call_accepted_setup (key url : string) (v : value) :
  call_accepted InstanaInterface "setup" [VStr key; VStr url; v]
  = conforms (interface_type SetupOptions) v || is_undefined v.
Proof.
  unfold call_accepted.
  cbn [find_method InstanaInterface String.eqb Ascii.eqb Bool.eqb
       m_name m_params m_optional negb].
  cbn [accepts_args required optional par_type par_optional].
  cbn [conforms orb andb].
  now rewrite andb_true_r.
Qed.

(** Options made only of a property that is not declared are refused. *)
Lemma foreign_options_refused (key url name : string) (v : value) :
  ~ In name (map p_name SetupOptions) ->
  call_accepted InstanaInterface "setup"
    [VStr key; VStr url; VObj [(name, v)]] = false.
Proof.
  intros Hnot. rewrite call_accepted_setup. cbn [is_undefined].
  rewrite orb_false_r, conforms_interface.
  assert (E : weak_ok (map signature SetupOptions) [(name, v)] = false).
  { unfold weak_ok. rewrite SetupOptions_weak. cbn [negb orb].
    destruct (shares_property (map signature SetupOptions) [(name, v)])
      eqn:Hs; [|reflexivity].
    apply shares_property_iff in Hs. destruct Hs as (p & x & Hp & Hx).
    cbn [get_prop] in Hx.
    destruct (String.eqb (p_name p) name) eqn:En; [|discriminate Hx].
    apply String.eqb_eq in En. exfalso. apply Hnot. rewrite <- En.
    now apply in_map. }
  rewrite E. apply andb_false_r.
Qed.

(** ** setup *)

(** C2: [SetupOptions] has eleven properties, every one of them optional,
    and the [options] parameter of [setup] is optional too; hence the call
    is accepted with the argument left out, with the empty record, and with
    any selection [chosen] of the declared properties filled with
    conforming values.  [setup] is declared [void]: its result type admits
    no value but [undefined], no fulfilled and no rejected promise. *)
Theorem setup_accepts_every_subset (key url : string)
    (chosen : list property) (pick : property -> value) :
  incl chosen SetupOptions ->
  (forall p, In p chosen -> conforms (p_type p) (pick p) = true) ->
  map p_name SetupOptions
    = [ "collectionEnabled"; "enableCrashReporting"; "slowSendInterval";
        "usiRefreshTimeIntervalInHrs"; "httpCaptureConfig";
        "suspendReporting"; "dropBeaconReporting"; "rateLimits";
        "trustDeviceTiming"; "enableW3CHeaders"; "queryTrackedDomainList" ]
  /\ (forall p, In p SetupOptions -> p_optional p = true)
  /\ (exists m, find_method "setup" InstanaInterface = Some m
        /\ m_optional m = false
        /\ map par_name (m_params m) = [ "key"; "reportingUrl"; "options" ]
        /\ map par_optional (m_params m) = [false; false; true]
        /\ m_returns m = TVoid
        /\ ~ admits_rejection (m_returns m)
        /\ (forall v, conforms (m_returns m) v = true -> v = VUndefined)
        /\ (forall v, conforms (m_returns m) (VResolved v) = false
                      /\ conforms (m_returns m) (VRejected v) = false))
  /\ call_accepted InstanaInterface "setup"
       [VStr key; VStr url; VObj (record_of chosen pick)] = true
  /\ call_accepted InstanaInterface "setup" [VStr key; VStr url; VObj []] = true
  /\ call_accepted InstanaInterface "setup" [VStr key; VStr url] = true.
Proof.
  intros Hincl Hpick.
  assert (Hrec : conforms (interface_type SetupOptions)
                   (VObj (record_of chosen pick)) = true).
  { apply every_subset_conforms; auto.
    - apply SetupOptions_names_distinct.
    - apply SetupOptions_all_optional. }
  split; [reflexivity|].
  split; [exact SetupOptions_all_optional|].
  split.
  { eexists. split; [reflexivity|].
    repeat (split; [reflexivity|]).
    split; [apply void_no_rejection|].
    split; [exact void_only_undefined|].
    intros v. split; reflexivity. }
  split; [rewrite call_accepted_setup, Hrec; reflexivity|].
  split; [rewrite call_accepted_setup; reflexivity|].
  reflexivity.
Qed.

Lemma call_accepted_reportEvent (eventName : string) (v : value) :
  call_accepted InstanaInterface "reportEvent" [VStr eventName; v]
  = conforms (interface_type EventOptions) v || is_undefined v.
Proof.
  unfold call_accepted.
  cbn [find_method InstanaInterface String.eqb Ascii.eqb Bool.eqb
       m_name m_params m_optional negb].
  cbn [accepts_args required optional par_type par_optional].
  cbn [conforms orb andb].
  now rewrite andb_true_r.
Qed.

(** ** Numeric options *)

(** C10: [slowSendInterval] and [usiRefreshTimeIntervalInHrs] are declared
    [number] and nothing more: [setup] accepts a record carrying either of
    them with any number [n] whatever.  The documented range 2-3600 of
    [slowSendInterval] is a remark only (1 and 5000 lie outside it and are
    accepted like every other number), and a negative, a zero and a
    positive [usiRefreshTimeIntervalInHrs] are accepted alike. *)
Theorem numeric_options_unconstrained (key url : string) (n : number) :
  call_accepted InstanaInterface "setup"
    [VStr key; VStr url; VObj [("slowSendInterval", VNum n)]] = true
  /\ call_accepted InstanaInterface "setup"
       [VStr key; VStr url; VObj [("usiRefreshTimeIntervalInHrs", VNum n)]]
     = true
  /\ (exists p, find_property "slowSendInterval" SetupOptions = Some p
        /\ p_type p = TNumber /\ p_range p = Some (2%Z, 3600%Z))
  /\ (exists p, find_property "usiRefreshTimeIntervalInHrs" SetupOptions = Some p
        /\ p_type p = TNumber /\ p_range p = None)
  /\ (in_range (2%Z, 3600%Z) (number_of_Z 60) = true
      /\ in_range (2%Z, 3600%Z) (number_of_Z 1) = false
      /\ in_range (2%Z, 3600%Z) (number_of_Z 5000) = false
      /\ in_range (2%Z, 3600%Z) (number_of_Z (-7)) = false)
  /\ (SFltb (number_of_Z (-1)) (number_of_Z 0) = true
      /\ SFltb (number_of_Z 0) (number_of_Z 24) = true).
Proof.
  split; [rewrite call_accepted_setup; reflexivity|].
  split; [rewrite call_accepted_setup; reflexivity|].
  split; [eexists; repeat split; reflexivity|].
  split; [eexists; repeat split; reflexivity|].
  split; repeat split; vm_compute; reflexivity.
Qed.

(** ** reportEvent *)

(** C5: [reportEvent] takes a string and an optional [EventOptions]; each
    of the six properties of [EventOptions] is optional on its own, so any
    selection [chosen] of them filled with conforming values is accepted,
    and so is the call [reportEvent("purchase", { customMetric: 42 })]
    that carries [customMetric] alone. *)
Theorem reportEvent_fields_independent (eventName : string)
    (chosen : list property) (pick : property -> value) :
  incl chosen EventOptions ->
  (forall p, In p chosen -> conforms (p_type p) (pick p) = true) ->
  map p_name EventOptions
    = [ "startTime"; "duration"; "viewName"; "meta"; "backendTracingId";
        "customMetric" ]
  /\ (forall p, In p EventOptions -> p_optional p = true)
  /\ (exists m, find_method "reportEvent" InstanaInterface = Some m
        /\ m_params m = [ required "eventName" TString;
                          optional "options" (interface_type EventOptions) ])
  /\ call_accepted InstanaInterface "reportEvent"
       [VStr eventName; VObj (record_of chosen pick)] = true
  /\ call_accepted InstanaInterface "reportEvent"
       [VStr "purchase"; VObj [("customMetric", VNum (number_of_Z 42))]] = true
  /\ call_accepted InstanaInterface "reportEvent" [VStr eventName] = true.
Proof.
  intros Hincl Hpick.
  split; [reflexivity|].
  split; [exact EventOptions_all_optional|].
  split; [eexists; split; reflexivity|].
  split.
  { rewrite call_accepted_reportEvent.
    rewrite every_subset_conforms; auto.
    - apply EventOptions_names_distinct.
    - apply EventOptions_all_optional. }
  split; reflexivity.
Qed.

(** ** RateLimits *)

Lemma member_value_RateLimits (name : string) (v : value) :
  member_value RateLimits name = Some v ->
  (name = "DEFAULT_LIMITS" /\ v = VNum (number_of_Z 0))
  \/ (name = "MID_LIMITS" /\ v = VNum (number_of_Z 1))
  \/ (name = "MAX_LIMITS" /\ v = VNum (number_of_Z 2)).
Proof.
  unfold member_value. cbn [RateLimits enum_members enum_value].
  destruct (String.eqb name "DEFAULT_LIMITS") eqn:E0.
  { apply String.eqb_eq in E0. intros [= <-]. auto. }
  destruct (String.eqb name "MID_LIMITS") eqn:E1.
  { apply String.eqb_eq in E1. intros [= <-]. auto. }
  destruct (String.eqb name "MAX_LIMITS") eqn:E2.
  { apply String.eqb_eq in E2. intros [= <-]. auto. }
  discriminate.
Qed.

(** C6: the [rateLimits] property is declared [RateLimits | number].
    [RateLimits.MAX_LIMITS] evaluates to the number 2, which the property
    admits through the enum alternative and through the [number]
    alternative; every member of [RateLimits] and every number is admitted,
    and [setup] accepts a record whose [rateLimits] is [MAX_LIMITS]. *)
Theorem MAX_LIMITS_assignable_to_rateLimits (key url : string) :
  exists p, find_property "rateLimits" SetupOptions = Some p
    /\ p_type p = TUnion (TEnum RateLimits) TNumber
    /\ member_value RateLimits "MAX_LIMITS" = Some (VNum (number_of_Z 2))
    /\ conforms (TEnum RateLimits) (VNum (number_of_Z 2)) = true
    /\ conforms TNumber (VNum (number_of_Z 2)) = true
    /\ (forall name v, member_value RateLimits name = Some v ->
          conforms (TEnum RateLimits) v = true /\ conforms (p_type p) v = true)
    /\ (forall x, conforms (p_type p) (VNum x) = true)
    /\ (forall v, member_value RateLimits "MAX_LIMITS" = Some v ->
          call_accepted InstanaInterface "setup"
            [VStr key; VStr url; VObj [("rateLimits", v)]] = true).
Proof.
  eexists. split; [reflexivity|].
  split; [reflexivity|].
  split; [reflexivity|].
  split; [reflexivity|].
  split; [reflexivity|].
  split.
  { intros name v H.
    destruct (member_value_RateLimits name v H) as [[_ ->]|[[_ ->]|[_ ->]]];
      split; reflexivity. }
  split.
  { intros x. cbn [p_type prop]. cbn [conforms]. apply orb_true_r. }
  intros v [= <-]. rewrite call_accepted_setup. reflexivity.
Qed.

(** C9: the members of [RateLimits] carry the numbers 0, 1 and 2, in that
    order, and the [@default] tag of the [rateLimits] property names
    [RateLimits.DEFAULT_LIMITS] and shows 0, which is the value of that
    member on either platform. *)
Theorem RateLimits_values_and_default (pl : platform) :
  enum_members RateLimits
    = [ ("DEFAULT_LIMITS", 0%Z); ("MID_LIMITS", 1%Z); ("MAX_LIMITS", 2%Z) ]
  /\ enum_value (enum_members RateLimits) "DEFAULT_LIMITS" = Some 0%Z
  /\ enum_value (enum_members RateLimits) "MID_LIMITS" = Some 1%Z
  /\ enum_value (enum_members RateLimits) "MAX_LIMITS" = Some 2%Z
  /\ exists p d, find_property "rateLimits" SetupOptions = Some p
       /\ p_default p = Some d
       /\ d = DefaultMember RateLimits "DEFAULT_LIMITS" 0%Z
       /\ default_value pl d = Some (VNum (number_of_Z 0))
       /\ default_value pl d = member_value RateLimits "DEFAULT_LIMITS".
Proof.
  repeat (split; [reflexivity|]).
  do 2 eexists. repeat (split; [reflexivity|]).
  destruct pl; reflexivity.
Qed.

(** ** Enumerations *)

Lemma conforms_literal (s : string) (v : value) :
  conforms (TLiteral s) v = true <-> v = VStr s.
Proof.
  destruct v; cbn [conforms]; try (split; [discriminate|discriminate]).
  rewrite String.eqb_eq. split; [now intros ->|now intros [= ->]].
Qed.

Lemma conforms_union (a b : ty) (v : value) :
  conforms (TUnion a b) v = true
  <-> conforms a v = true \/ conforms b v = true.
Proof. cbn [conforms]. apply orb_true_iff. Qed.

Lemma conforms_RateLimits (v : value) :
  conforms (TEnum RateLimits) v = true
  <-> v = VNum (number_of_Z 0) \/ v = VNum (number_of_Z 1)
      \/ v = VNum (number_of_Z 2).
Proof.
  destruct v; cbn [conforms];
    try (split; [discriminate|intros [H|[H|H]]; discriminate H]).
  cbn [RateLimits enum_members existsb snd].
  rewrite !orb_true_iff, !number_eqb_eq.
  split.
  - intros [->|[->|[->|H]]]; auto. discriminate H.
  - intros [[= ->]|[[= ->]|[= ->]]]; auto.
Qed.

(** C8: [RateLimits] has exactly the three members [DEFAULT_LIMITS],
    [MID_LIMITS] and [MAX_LIMITS] and admits their values only;
    [HTTPCaptureConfig] admits the strings 'AUTO' and 'NONE' and nothing
    else; [SuspendReportingType] admits 'NEVER', 'LOW_BATTERY',
    'CELLULAR_CONNECTION' and 'LOW_BATTERY_OR_CELLULAR_CONNECTION' and
    nothing else. *)
Theorem enumerations_closed (v : value) :
  (map fst (enum_members RateLimits)
     = [ "DEFAULT_LIMITS"; "MID_LIMITS"; "MAX_LIMITS" ]
   /\ List.length (enum_members RateLimits) = 3
   /\ (conforms (TEnum RateLimits) v = true
       <-> exists name, In name (map fst (enum_members RateLimits))
             /\ member_value RateLimits name = Some v))
  /\ (conforms HTTPCaptureConfig v = true
      <-> v = VStr "AUTO" \/ v = VStr "NONE")
  /\ (conforms SuspendReportingType v = true
      <-> v = VStr "NEVER" \/ v = VStr "LOW_BATTERY"
          \/ v = VStr "CELLULAR_CONNECTION"
          \/ v = VStr "LOW_BATTERY_OR_CELLULAR_CONNECTION").
Proof.
  split; [split; [reflexivity|split; [reflexivity|]]|split].
  - rewrite conforms_RateLimits. split.
    + intros [H|[H|H]]; subst v;
        [exists "DEFAULT_LIMITS"|exists "MID_LIMITS"|exists "MAX_LIMITS"];
        (split; [simpl; tauto|reflexivity]).
    + intros (name & _ & H).
      destruct (member_value_RateLimits name v H) as [[_ ->]|[[_ ->]|[_ ->]]];
        auto.
  - unfold HTTPCaptureConfig.
    now rewrite conforms_union, !conforms_literal.
  - unfold SuspendReportingType.
    now rewrite !conforms_union, !conforms_literal.
Qed.

(** ** Result types and the failure channel *)

Lemma promise_admits_rejection (res : ty) (reason : value) :
  conforms (TPromise res) (VRejected reason) = true.
Proof. reflexivity. Qed.

Lemma conforms_promise_string (out : value) :
  conforms (TPromise TString) out = true ->
  (exists s, out = VResolved (VStr s)) \/ (exists reason, out = VRejected reason).
Proof.
  destruct out as [| | | | | |r|reason]; cbn [conforms]; try discriminate.
  - destruct r; try discriminate. intros _. left. eauto.
  - intros _. right. eauto.
Qed.

Lemma find_method_declared (m : method) :
  In m InstanaInterface -> find_method (m_name m) InstanaInterface = Some m.
Proof.
  cbn [In InstanaInterface].
  intros H; repeat (destruct H as [<-|H]; [reflexivity|]); destruct H.
Qed.

Lemma conforms_promise_settled (res : ty) (out : value) :
  conforms (TPromise res) out = true ->
  (exists v, out = VResolved v /\ conforms res v = true)
  \/ (exists reason, out = VRejected reason).
Proof.
  destruct out as [| | | | | |r|reason]; cbn [conforms]; try discriminate.
  - intros H. left. eauto.
  - intros _. right. eauto.
Qed.

(** C3: [InstanaInterface] declares fourteen methods.  [getSessionID],
    [setIgnoreURLsByRegex], [setRedactHTTPQueryByRegex],
    [setCaptureHeadersByRegex], [getViewName] and [getCollectionEnabled]
    are among them and return a promise, whose type admits every rejection
    reason as it is; on an object providing the interface their calls
    settle: fulfilled with a value of the declared type, or rejected.  For
    each declared method the result type admits a rejected promise exactly
    when it is a promise type, and that is so exactly for those six.
    Every other method is declared [void]: its result type admits no value
    but [undefined], no fulfilled and no rejected promise. *)
Theorem failure_channel_iff_promise :
  map m_name InstanaInterface
    = [ "setup"; "setCollectionEnabled"; "setView"; "getSessionID";
        "setUserID"; "setUserName"; "setUserEmail"; "setMeta";
        "setIgnoreURLsByRegex"; "setRedactHTTPQueryByRegex";
        "setCaptureHeadersByRegex"; "reportEvent"; "getViewName";
        "getCollectionEnabled" ]
  /\ (forall name, In name promise_methods ->
        exists m res, find_method name InstanaInterface = Some m
          /\ m_returns m = TPromise res
          /\ (forall reason, conforms (m_returns m) (VRejected reason) = true)
          /\ (forall (State : Type) (impl : implementation State)
                 (f : native_method State) (args : list value) (st : State),
                 implements InstanaInterface impl -> impl name = Some f ->
                 accepts_args (m_params m) args = true ->
                 (exists v, snd (f args st) = VResolved v
                            /\ conforms res v = true)
                 \/ (exists reason, snd (f args st) = VRejected reason)))
  /\ (forall m, In m InstanaInterface ->
        (admits_rejection (m_returns m) <-> is_promise (m_returns m) = true)
        /\ (is_promise (m_returns m) = true
            <-> In (m_name m) promise_methods)
        /\ (is_promise (m_returns m) = false ->
              m_returns m = TVoid
              /\ (forall v, conforms (m_returns m) v = true -> v = VUndefined)
              /\ (forall v, conforms (m_returns m) (VResolved v) = false
                            /\ conforms (m_returns m) (VRejected v) = false))).
Proof.
  split; [reflexivity|]. split.
  - intros name Hname.
    assert (Hm : exists m res, find_method name InstanaInterface = Some m
                   /\ m_returns m = TPromise res).
    { cbn in Hname.
      destruct Hname as [<-|[<-|[<-|[<-|[<-|[<-|[]]]]]]];
        do 2 eexists; split; reflexivity. }
    destruct Hm as (m & res & Hfind & Hret). exists m, res.
    split; [exact Hfind|]. split; [exact Hret|].
    split; [intros reason; rewrite Hret; reflexivity|].
    intros State impl f args st Himpl Hf Hargs.
    apply find_method_In in Hfind. destruct Hfind as [Hin <-].
    specialize (Himpl m Hin). rewrite Hf in Himpl.
    specialize (Himpl args st Hargs). rewrite Hret in Himpl.
    now apply conforms_promise_settled.
  - intros m Hin.
    assert (Hshape : (m_returns m = TVoid /\ ~ In (m_name m) promise_methods)
                     \/ (exists res, m_returns m = TPromise res
                           /\ In (m_name m) promise_methods)).
    { revert Hin. cbn [In InstanaInterface].
      intros H;
        repeat (destruct H as [<-|H];
                [first [ left; split; [reflexivity|];
                         cbn; intuition discriminate
                       | right; eexists; split; [reflexivity|];
                         cbn; tauto ]|]);
        destruct H. }
    destruct Hshape as [[Hvoid Hnot]|(res & Hprom & Hyes)].
    + rewrite Hvoid. cbn [is_promise].
      split; [split; [intros H; now apply void_no_rejection in H
                     |discriminate]|].
      split; [split; [discriminate|intros H; now apply Hnot in H]|].
      intros _. split; [reflexivity|]. split; [exact void_only_undefined|].
      intros v. split; reflexivity.
    + rewrite Hprom. cbn [is_promise].
      split; [split; [reflexivity|intros _; exists VUndefined; reflexivity]|].
      split; [split; [intros _; exact Hyes|reflexivity]|].
      discriminate.
Qed.

(** ** Optional members *)

Lemma optional_iff_ios_only (m : method) :
  In m InstanaInterface ->
  (m_optional m = true <-> In (m_name m) ios_only_methods)
  /\ (m_optional m = true -> m_only m = Some IOS).
Proof.
  cbn [In InstanaInterface].
  intros H;
    repeat (destruct H as [<-|H];
            [cbn; split; [split|]; first [discriminate|reflexivity|tauto
                                         |intuition discriminate]|]);
    destruct H.
Qed.

(** C4: [getViewName] and [getCollectionEnabled] are members of
    [InstanaInterface], declared optional and remarked "iOS only"; the
    other twelve members are required.  An object that provides the
    interface has every required member and still provides the interface
    once the two getters are taken away, where calling them finds no
    member; it stops providing the interface once a required member is
    taken away.  So the plain call of either getter is refused and the
    call has to be guarded by a test for the member, while a required
    member is called plainly. *)
Theorem optional_members_feature_detect {State : Type}
    (impl : implementation State) :
  implements InstanaInterface impl ->
  (forall name, In name ios_only_methods ->
     exists m, find_method name InstanaInterface = Some m
       /\ In m InstanaInterface
       /\ m_optional m = true /\ m_only m = Some IOS
       /\ m_params m = [] /\ is_promise (m_returns m) = true)
  /\ map m_name (filter (fun m => negb (m_optional m)) InstanaInterface)
     = [ "setup"; "setCollectionEnabled"; "setView"; "getSessionID";
         "setUserID"; "setUserName"; "setUserEmail"; "setMeta";
         "setIgnoreURLsByRegex"; "setRedactHTTPQueryByRegex";
         "setCaptureHeadersByRegex"; "reportEvent" ]
  /\ (forall m, In m InstanaInterface ->
        (m_optional m = true <-> In (m_name m) ios_only_methods))
  /\ (forall m, In m InstanaInterface -> m_optional m = false ->
        exists f, impl (m_name m) = Some f)
  /\ implements InstanaInterface (without ios_only_methods impl)
  /\ (forall name args st, In name ios_only_methods ->
        invoke (without ios_only_methods impl) name args st = None)
  /\ (forall name, In name ios_only_methods ->
        (forall args, call_accepted InstanaInterface name args = false)
        /\ guarded_call_accepted InstanaInterface name [] = true)
  /\ (forall m args, In m InstanaInterface -> m_optional m = false ->
        call_accepted InstanaInterface (m_name m) args
        = guarded_call_accepted InstanaInterface (m_name m) args)
  /\ (forall m, In m InstanaInterface -> m_optional m = false ->
        ~ implements InstanaInterface (without [m_name m] impl)).
Proof.
  intros Himpl.
  split.
  { intros name Hname. cbn in Hname.
    destruct Hname as [<-|[<-|[]]];
      (eexists; split; [reflexivity|]; split; [cbn; tauto|];
       repeat split). }
  split; [reflexivity|].
  split; [intros m Hin; apply (optional_iff_ios_only m Hin)|].
  split.
  { intros m Hin Hreq. specialize (Himpl m Hin).
    destruct (impl (m_name m)) as [f|]; [eauto|congruence]. }
  split.
  { intros m Hin. unfold without.
    destruct (existsb (String.eqb (m_name m)) ios_only_methods) eqn:E.
    - apply (optional_iff_ios_only m Hin).
      apply existsb_exists in E. destruct E as (n & Hn & E).
      apply String.eqb_eq in E. now subst n.
    - apply Himpl, Hin. }
  split.
  { intros name args st Hname. unfold invoke, without.
    assert (E : existsb (String.eqb name) ios_only_methods = true).
    { apply existsb_exists. exists name. split; [exact Hname|].
      apply String.eqb_refl. }
    now rewrite E. }
  split.
  { intros name Hname. cbn in Hname.
    destruct Hname as [<-|[<-|[]]]; split; try reflexivity;
      intros args; reflexivity. }
  split.
  { intros m args Hin Hreq.
    unfold call_accepted, guarded_call_accepted.
    rewrite (find_method_declared m Hin), Hreq. reflexivity. }
  intros m Hin Hreq Hless. specialize (Hless m Hin).
  unfold without in Hless. cbn [existsb] in Hless.
  rewrite String.eqb_refl in Hless. cbn in Hless. congruence.
Qed.

(** ** The native backend provides the interface *)

Lemma strings_of_strings (l : list string) : strings_of (map VStr l) = l.
Proof. induction l as [|s l IH]; simpl; [reflexivity|now rewrite IH]. Qed.

Lemma strings_conform (l : list string) :
  forallb (conforms TString) (map VStr l) = true.
Proof. induction l as [|s l IH]; simpl; auto. Qed.

Lemma set_patterns_settles (compiles : string -> bool) (args : list value)
    (st : agent_state) :
  conforms (TPromise TString) (snd (set_patterns compiles args st)) = true.
Proof.
  unfold set_patterns. destruct args as [|[] ?]; try reflexivity.
  destruct (forallb compiles (strings_of items)); reflexivity.
Qed.

Lemma native_implements (pl : platform) (compiles : string -> bool) :
  implements InstanaInterface (native pl compiles).
Proof.
  intros m. cbn [In InstanaInterface].
  intros H;
    repeat (destruct H as [<-|H];
            [destruct pl; cbn;
             first [ reflexivity
                   | intros args st _;
                     first [reflexivity | apply set_patterns_settles] ]|]);
    destruct H.
Qed.

(** ** getSessionID *)

(** C7: [getSessionID] is a required member without parameters (a call
    with any argument is refused) whose result is [Promise<string>]: a
    fulfilled result is admitted exactly when it carries a string, and
    every rejection is admitted.  On any object that provides the
    interface, a call made in the state an accepted [setup] call leaves
    behind settles with a string or rejects. *)
Theorem getSessionID_resolves_to_string {State : Type}
    (impl : implementation State) (key url : string) (options : value)
    (st : State) :
  implements InstanaInterface impl ->
  call_accepted InstanaInterface "setup" [VStr key; VStr url; options] = true ->
  (exists m, find_method "getSessionID" InstanaInterface = Some m
     /\ m_optional m = false /\ m_params m = []
     /\ m_returns m = TPromise TString)
  /\ call_accepted InstanaInterface "getSessionID" [] = true
  /\ (forall a rest,
        call_accepted InstanaInterface "getSessionID" (a :: rest) = false)
  /\ (forall v, conforms (TPromise TString) (VResolved v) = true
                <-> exists s, v = VStr s)
  /\ (forall reason, conforms (TPromise TString) (VRejected reason) = true)
  /\ (exists st1 r st2 out,
        invoke impl "setup" [VStr key; VStr url; options] st = Some (st1, r)
        /\ invoke impl "getSessionID" [] st1 = Some (st2, out)
        /\ ((exists s, out = VResolved (VStr s))
            \/ (exists reason, out = VRejected reason))).
Proof.
  intros Himpl Hsetup.
  split; [eexists; repeat split; reflexivity|].
  split; [reflexivity|].
  split; [reflexivity|].
  split.
  { intros v. cbn [conforms]. destruct v; split;
      try discriminate; try (intros [s H]; discriminate H); eauto. }
  split; [reflexivity|].
  pose proof (Himpl _ (or_introl eq_refl)) as Hs.
  cbn [m_name m_optional m_params m_returns] in Hs.
  pose proof (Himpl _ (or_intror (or_intror (or_intror (or_introl eq_refl)))))
    as Hg.
  cbn [m_name m_optional m_params m_returns] in Hg.
  unfold invoke.
  destruct (impl "setup") as [f|]; [|discriminate].
  destruct (impl "getSessionID") as [g|]; [|discriminate].
  destruct (f [VStr key; VStr url; options] st) as [st1 r] eqn:Ef.
  destruct (g [] st1) as [st2 out] eqn:Eg.
  exists st1, r, st2, out.
  split; [reflexivity|].
  split; [now rewrite Eg|].
  apply conforms_promise_string.
  specialize (Hg [] st1 eq_refl). now rewrite Eg in Hg.
Qed.

(** ** The regex-pattern methods *)

(** C1: [setIgnoreURLsByRegex], [setRedactHTTPQueryByRegex] and
    [setCaptureHeadersByRegex] are declared alike: required, one parameter
    [regexArray : string[]], result [Promise<string>], documented to
    resolve to "Success" or reject.  Every array of strings is an accepted
    argument, and on any object that provides the interface the call
    settles with a string or rejects.  On the native backend the call
    resolves to "Success" when every pattern compiles and rejects when one
    does not, as for the array holding the malformed pattern "(". *)
Theorem regex_methods_contract (pl : platform) (compiles : string -> bool)
    (name : string) (patterns : list string) (st : agent_state) :
  In name regex_methods ->
  compiles "(" = false ->
  (exists m, find_method name InstanaInterface = Some m
     /\ m_optional m = false
     /\ m_params m = [ required "regexArray" (TArray TString) ]
     /\ m_returns m = TPromise TString
     /\ m_resolves_to m = Some "Success")
  /\ call_accepted InstanaInterface name [VArr (map VStr patterns)] = true
  /\ (forall (State : Type) (impl : implementation State) (s : State),
        implements InstanaInterface impl ->
        exists s' out,
          invoke impl name [VArr (map VStr patterns)] s = Some (s', out)
          /\ ((exists str, out = VResolved (VStr str))
              \/ (exists reason, out = VRejected reason)))
  /\ (forallb compiles patterns = true ->
        invoke (native pl compiles) name [VArr (map VStr patterns)] st
        = Some (st, VResolved (VStr "Success")))
  /\ (forallb compiles patterns = false ->
        exists reason,
          invoke (native pl compiles) name [VArr (map VStr patterns)] st
          = Some (st, VRejected reason))
  /\ (exists reason,
        invoke (native pl compiles) name [VArr [VStr "("]] st
        = Some (st, VRejected reason)).
Proof.
  intros Hname Hbad.
  assert (Hinv : forall ps,
            invoke (native pl compiles) name [VArr (map VStr ps)] st
            = Some (set_patterns compiles [VArr (map VStr ps)] st)).
  { intros ps. cbn in Hname.
    destruct Hname as [<-|[<-|[<-|[]]]]; destruct pl; reflexivity. }
  assert (Hdecl : exists m, In m InstanaInterface /\ m_name m = name
            /\ find_method name InstanaInterface = Some m
            /\ m_optional m = false
            /\ m_params m = [ required "regexArray" (TArray TString) ]
            /\ m_returns m = TPromise TString
            /\ m_resolves_to m = Some "Success").
  { cbn in Hname.
    destruct Hname as [<-|[<-|[<-|[]]]];
      (eexists; split; [|split; [|split; [reflexivity|]]];
       [ | | repeat split ]); cbn; auto 20. }
  destruct Hdecl as (m & Hin & Hn & Hfind & Hreq & Hpar & Hret & Hdoc).
  assert (Hacc : accepts_args (m_params m) [VArr (map VStr patterns)] = true).
  { rewrite Hpar. cbn [accepts_args required par_type par_optional conforms].
    now rewrite strings_conform. }
  split; [exists m; auto|].
  split; [unfold call_accepted; rewrite Hfind, Hreq; exact Hacc|].
  split.
  { intros State impl s Himpl. specialize (Himpl m Hin).
    unfold invoke. rewrite <- Hn.
    destruct (impl (m_name m)) as [f|]; [|congruence].
    destruct (f [VArr (map VStr patterns)] s) as [s' out] eqn:Ef.
    exists s', out. split; [reflexivity|].
    apply conforms_promise_string.
    specialize (Himpl _ s Hacc). rewrite Hret, Ef in Himpl. exact Himpl. }
  split.
  { intros Hok. rewrite Hinv. unfold set_patterns.
    now rewrite strings_of_strings, Hok. }
  split.
  { intros Hko. rewrite Hinv. unfold set_patterns.
    rewrite strings_of_strings, Hko. eauto. }
  change [VArr [VStr "("]] with [VArr (map VStr ["("])].
  rewrite Hinv. unfold set_patterns.
  cbn [map strings_of forallb]. rewrite Hbad. cbn. eauto.
Qed.

(** * Instances *)

(** [setup("key", url, { collectionEnabled: true, rateLimits: 2 })]. *)
Lemma setup_accepts_every_subset_witness :
  incl setup_choice SetupOptions
  /\ (forall p, In p setup_choice ->
        conforms (p_type p) (setup_pick p) = true)
  /\ call_accepted InstanaInterface "setup"
       [VStr "key"; VStr "https://example.test";
        VObj (record_of setup_choice setup_pick)] = true.
Proof.
  assert (h1 : incl setup_choice SetupOptions) by apply incl_filter.
  assert (h2 : forall p, In p setup_choice ->
                 conforms (p_type p) (setup_pick p) = true).
  { intros p Hp. cbn in Hp. destruct Hp as [<-|[<-|[]]]; reflexivity. }
  split; [exact h1|split; [exact h2|]].
  destruct (setup_accepts_every_subset "key" "https://example.test"
              setup_choice setup_pick h1 h2) as (_ & _ & _ & H & _).
  exact H.
Defined.

(** [reportEvent("purchase", { customMetric: 42 })] as a selection of one
    property. *)
Lemma reportEvent_fields_independent_witness :
  incl event_choice EventOptions
  /\ (forall p, In p event_choice ->
        conforms (p_type p) (event_pick p) = true)
  /\ call_accepted InstanaInterface "reportEvent"
       [VStr "purchase"; VObj (record_of event_choice event_pick)] = true.
Proof.
  assert (h1 : incl event_choice EventOptions) by apply incl_filter.
  assert (h2 : forall p, In p event_choice ->
                 conforms (p_type p) (event_pick p) = true).
  { intros p Hp. cbn in Hp. destruct Hp as [<-|[]]; reflexivity. }
  split; [exact h1|split; [exact h2|]].
  destruct (reportEvent_fields_independent "purchase"
              event_choice event_pick h1 h2) as (_ & _ & _ & H & _).
  exact H.
Defined.

(** The Android backend lacks the two optional members; the iOS backend
    still provides the interface without them. *)
Lemma optional_members_feature_detect_witness :
  implements InstanaInterface (native Android groups_balanced)
  /\ invoke (native Android groups_balanced) "getViewName" [] fresh_state = None
  /\ implements InstanaInterface
       (without ios_only_methods (native IOS groups_balanced))
  /\ call_accepted InstanaInterface "getViewName" [] = false
  /\ guarded_call_accepted InstanaInterface "getViewName" [] = true.
Proof.
  split; [apply native_implements|].
  split; [reflexivity|].
  destruct (optional_members_feature_detect (native IOS groups_balanced)
              (native_implements IOS groups_balanced))
    as (_ & _ & _ & _ & H & _ & Hcall & _).
  split; [exact H|].
  destruct (Hcall "getViewName" (or_introl eq_refl)) as [Hplain Hguard].
  split; [apply Hplain|exact Hguard].
Defined.

(** [setup] then [getSessionID] on the Android backend. *)
Lemma getSessionID_resolves_to_string_witness :
  implements InstanaInterface (native Android groups_balanced)
  /\ call_accepted InstanaInterface "setup"
       [VStr "key"; VStr "https://example.test"; VObj full_setup_options]
     = true
  /\ exists st1 r st2 out,
       invoke (native Android groups_balanced) "setup"
         [VStr "key"; VStr "https://example.test"; VObj full_setup_options]
         fresh_state = Some (st1, r)
       /\ invoke (native Android groups_balanced) "getSessionID" [] st1
          = Some (st2, out)
       /\ ((exists s, out = VResolved (VStr s))
           \/ (exists reason, out = VRejected reason)).
Proof.
  assert (h1 := native_implements Android groups_balanced).
  assert (h2 : call_accepted InstanaInterface "setup"
           [VStr "key"; VStr "https://example.test"; VObj full_setup_options]
           = true) by reflexivity.
  split; [exact h1|split; [exact h2|]].
  destruct (getSessionID_resolves_to_string
              (native Android groups_balanced) "key" "https://example.test"
              (VObj full_setup_options) fresh_state h1 h2)
    as (_ & _ & _ & _ & _ & H).
  exact H.
Defined.

(** [setIgnoreURLsByRegex(["^/health$"])] resolves and
    [setIgnoreURLsByRegex(["("])] rejects on the iOS backend with the
    balanced-groups check. *)
Lemma regex_methods_contract_witness :
  In "setIgnoreURLsByRegex" regex_methods
  /\ groups_balanced "(" = false
  /\ forallb groups_balanced ["^/health$"] = true
  /\ invoke (native IOS groups_balanced) "setIgnoreURLsByRegex"
       [VArr (map VStr ["^/health$"])] fresh_state
     = Some (fresh_state, VResolved (VStr "Success"))
  /\ exists reason,
       invoke (native IOS groups_balanced) "setIgnoreURLsByRegex"
         [VArr [VStr "("]] fresh_state
       = Some (fresh_state, VRejected reason).
Proof.
  assert (h1 : In "setIgnoreURLsByRegex" regex_methods) by (cbn; tauto).
  assert (h2 : groups_balanced "(" = false) by reflexivity.
  assert (h3 : forallb groups_balanced ["^/health$"] = true) by reflexivity.
  split; [exact h1|split; [exact h2|split; [exact h3|]]].
  destruct (regex_methods_contract IOS groups_balanced "setIgnoreURLsByRegex"
              ["^/health$"] fresh_state h1 h2) as (_ & _ & _ & Hok & _ & Hbad).
  split; [exact (Hok h3)|exact Hbad].
Defined.

(** * Further properties of the declared surface *)

(** ** Argument lists *)

Lemma conforms_string (v : value) :
  conforms TString v = true <-> exists s, v = VStr s.
Proof.
  destruct v; cbn [conforms]; split; try discriminate; eauto;
    intros [? H]; discriminate H.
Qed.

Lemma conforms_boolean (v : value) :
  conforms TBoolean v = true <-> exists b, v = VBool b.
Proof.
  destruct v; cbn [conforms]; split; try discriminate; eauto;
    intros [? H]; discriminate H.
Qed.

Lemma conforms_number (v : value) :
  conforms TNumber v = true <-> exists x, v = VNum x.
Proof.
  destruct v; cbn [conforms]; split; try discriminate; eauto;
    intros [? H]; discriminate H.
Qed.

Lemma is_undefined_iff (v : value) : is_undefined v = true <-> v = VUndefined.
Proof. destruct v; cbn; split; try discriminate; reflexivity. Qed.

Lemma accepts_nil (args : list value) :
  accepts_args [] args = true <-> args = [].
Proof. destruct args; cbn; split; try discriminate; reflexivity. Qed.

Lemma accepts_required (n : string) (t : ty) (ps : list parameter)
    (args : list value) :
  accepts_args (required n t :: ps) args = true
  <-> exists a rest, args = a :: rest /\ conforms t a = true
                     /\ accepts_args ps rest = true.
Proof.
  destruct args as [|a rest]; cbn [accepts_args required par_optional par_type].
  - split; [discriminate|intros (a & rest & H & _); discriminate H].
  - cbn [andb]. rewrite orb_false_r, andb_true_iff. split.
    + intros [H1 H2]. eauto.
    + intros (a' & rest' & [= <- <-] & H1 & H2). auto.
Qed.

Lemma accepts_optional_last (n : string) (t : ty) (args : list value) :
  accepts_args [optional n t] args = true
  <-> args = [] \/ exists a, args = [a]
                              /\ (conforms t a = true \/ a = VUndefined).
Proof.
  destruct args as [|a rest]; cbn [accepts_args optional par_optional par_type].
  - split; auto.
  - cbn [andb]. rewrite andb_true_iff, orb_true_iff, is_undefined_iff.
    destruct rest as [|b rest]; cbn.
    + split; [intros [H _]; right; eauto|].
      intros [H|(a' & [= <-] & H)]; [discriminate H|auto].
    + split; [intros [_ H]; discriminate H|].
      intros [H|(a' & H & _)]; discriminate H.
Qed.

Lemma strings_only (items : list value) :
  forallb (conforms TString) items = true
  <-> exists l : list string, items = map VStr l.
Proof.
  induction items as [|v items IH]; cbn [forallb].
  - split; [exists []; reflexivity|reflexivity].
  - rewrite andb_true_iff, IH, conforms_string. split.
    + intros [[s ->] [l ->]]. exists (s :: l). reflexivity.
    + intros [[|s l] H]; [discriminate H|]. injection H as -> ->. eauto.
Qed.

Lemma conforms_string_array (v : value) :
  conforms (TArray TString) v = true
  <-> exists l : list string, v = VArr (map VStr l).
Proof.
  destruct v; cbn [conforms];
    try (split; [discriminate|intros [? H]; discriminate H]).
  rewrite strings_only. split.
  - intros [l ->]. eauto.
  - intros [l [= ->]]. eauto.
Qed.

Lemma conforms_interface_object (ps : list property) (v : value) :
  conforms (interface_type ps) v = true -> exists props, v = VObj props.
Proof.
  unfold interface_type. destruct v; cbn [conforms]; try discriminate. eauto.
Qed.

(** When all properties are optional, the property checks say that every
    declared property that is present is [undefined] or of its declared
    type. *)
Lemma properties_ok_iff (ps : list property) (props : list (string * value)) :
  (forall p, In p ps -> p_optional p = true) ->
  (forallb (property_ok props) ps = true
   <-> forall p x, In p ps -> get_prop (p_name p) props = Some x ->
         conforms (p_type p) x = true \/ x = VUndefined).
Proof.
  intros Hopt. rewrite forallb_forall. split.
  - intros H p x Hp Hx. specialize (H p Hp). unfold property_ok in H.
    rewrite Hx, (Hopt p Hp) in H. cbn [andb] in H.
    apply orb_true_iff in H. now rewrite is_undefined_iff in H.
  - intros H p Hp. unfold property_ok.
    destruct (get_prop (p_name p) props) as [x|] eqn:Hx; [|now apply Hopt].
    rewrite (Hopt p Hp). cbn [andb]. apply orb_true_iff.
    rewrite is_undefined_iff. now apply (H p).
Qed.

(** A weak record admits exactly the objects in which every declared
    property that is present is [undefined] or of its declared type and
    which, unless empty, carry a declared property. *)
Lemma optional_record_conforms (ps : list property)
    (props : list (string * value)) :
  (forall p, In p ps -> p_optional p = true) ->
  is_weak (map signature ps) = true ->
  (conforms (interface_type ps) (VObj props) = true
   <-> (forall p x, In p ps -> get_prop (p_name p) props = Some x ->
          conforms (p_type p) x = true \/ x = VUndefined)
       /\ (props = []
           \/ exists p x, In p ps /\ get_prop (p_name p) props = Some x)).
Proof.
  intros Hopt Hweak.
  now rewrite conforms_interface, andb_true_iff,
    (properties_ok_iff ps props Hopt), (weak_ok_iff ps props Hweak).
Qed.

(** What a weak record admits, for values of any shape. *)
Lemma weak_record_admits (ps : list property) (v : value) :
  (forall p, In p ps -> p_optional p = true) ->
  is_weak (map signature ps) = true ->
  (conforms (interface_type ps) v = true
   <-> exists props, v = VObj props
         /\ (forall p x, In p ps -> get_prop (p_name p) props = Some x ->
               conforms (p_type p) x = true \/ x = VUndefined)
         /\ (props = []
             \/ exists p x, In p ps /\ get_prop (p_name p) props = Some x)).
Proof.
  intros Hopt Hweak. split.
  - intros H. destruct (conforms_interface_object ps v H) as [props ->].
    exists props. split; [reflexivity|].
    now apply optional_record_conforms.
  - intros (props & -> & H). now apply optional_record_conforms.
Qed.

(** Looking a member up and reading its parameter list. *)
Ltac open_call :=
  unfold call_accepted;
  cbn [find_method InstanaInterface String.eqb Ascii.eqb Bool.eqb
       m_name m_params m_optional negb andb].

(** X1: The calls [setup] accepts are exactly those with two strings, followed
    or not by an options argument that is [undefined] or an object in
    which every declared [SetupOptions] property that is present is
    [undefined] or of its declared type and which, unless it has no
    property at all, carries a declared property.  A missing key or URL, a
    non-string in their place, a fourth argument, and options made only of
    properties that are not declared are all refused. *)
Theorem setup_calls_characterised (args : list value) :
  call_accepted InstanaInterface "setup" args = true
  <-> exists key url,
        args = [VStr key; VStr url]
        \/ exists o, args = [VStr key; VStr url; o]
             /\ (o = VUndefined
                 \/ exists props, o = VObj props
                      /\ (forall p x, In p SetupOptions ->
                            get_prop (p_name p) props = Some x ->
                            conforms (p_type p) x = true \/ x = VUndefined)
                      /\ (props = []
                          \/ exists p x, In p SetupOptions
                               /\ get_prop (p_name p) props = Some x)).
Proof.
  pose proof (fun o => weak_record_admits SetupOptions o
                         SetupOptions_all_optional SetupOptions_weak) as Hrec.
  split.
  - open_call. intros H.
    apply accepts_required in H. destruct H as (a & r1 & -> & Ha & H).
    apply accepts_required in H. destruct H as (b & r2 & -> & Hb & H).
    apply conforms_string in Ha. destruct Ha as [key ->].
    apply conforms_string in Hb. destruct Hb as [url ->].
    exists key, url.
    apply accepts_optional_last in H.
    destruct H as [->|(o & -> & [Ho|Ho])]; [now left|right; exists o..].
    + split; [reflexivity|]. right. now apply Hrec.
    + split; [reflexivity|]. now left.
  - intros (key & url & [->|(o & -> & Ho)]); [reflexivity|].
    rewrite call_accepted_setup. apply orb_true_iff.
    rewrite is_undefined_iff. destruct Ho as [Ho|Ho]; [now right|left].
    now apply Hrec.
Qed.

(** X2: The calls [reportEvent] accepts are exactly those with a string event
    name, followed or not by an options argument that is [undefined] or an
    object in which every declared [EventOptions] property that is present
    is [undefined] or of its declared type and which, unless it has no
    property at all, carries a declared property. *)
Theorem reportEvent_calls_characterised (args : list value) :
  call_accepted InstanaInterface "reportEvent" args = true
  <-> exists eventName,
        args = [VStr eventName]
        \/ exists o, args = [VStr eventName; o]
             /\ (o = VUndefined
                 \/ exists props, o = VObj props
                      /\ (forall p x, In p EventOptions ->
                            get_prop (p_name p) props = Some x ->
                            conforms (p_type p) x = true \/ x = VUndefined)
                      /\ (props = []
                          \/ exists p x, In p EventOptions
                               /\ get_prop (p_name p) props = Some x)).
Proof.
  pose proof (fun o => weak_record_admits EventOptions o
                         EventOptions_all_optional EventOptions_weak) as Hrec.
  split.
  - open_call. intros H.
    apply accepts_required in H. destruct H as (a & r1 & -> & Ha & H).
    apply conforms_string in Ha. destruct Ha as [eventName ->].
    exists eventName.
    apply accepts_optional_last in H.
    destruct H as [->|(o & -> & [Ho|Ho])]; [now left|right; exists o..].
    + split; [reflexivity|]. right. now apply Hrec.
    + split; [reflexivity|]. now left.
  - intros (eventName & [->|(o & -> & Ho)]); [reflexivity|].
    rewrite call_accepted_reportEvent. apply orb_true_iff.
    rewrite is_undefined_iff. destruct Ho as [Ho|Ho]; [now right|left].
    now apply Hrec.
Qed.

(** X3: [setView], [setUserID], [setUserName] and [setUserEmail] accept exactly
    the calls with one string argument. *)
Theorem string_setters_take_one_string (name : string) (args : list value) :
  In name string_setters ->
  (call_accepted InstanaInterface name args = true
   <-> exists s, args = [VStr s]).
Proof.
  intros Hname. cbn in Hname.
  destruct Hname as [<-|[<-|[<-|[<-|[]]]]]; open_call;
    (split;
     [ intros H; apply accepts_required in H;
       destruct H as (a & r & -> & Ha & H);
       apply accepts_nil in H; subst r;
       apply conforms_string in Ha; destruct Ha as [s ->]; eauto
     | intros [s ->]; reflexivity ]).
Qed.

(** X4: [setMeta] accepts exactly the calls with two string arguments. *)
Theorem setMeta_takes_two_strings (args : list value) :
  call_accepted InstanaInterface "setMeta" args = true
  <-> exists key val, args = [VStr key; VStr val].
Proof.
  open_call. split.
  - intros H.
    apply accepts_required in H. destruct H as (a & r1 & -> & Ha & H).
    apply accepts_required in H. destruct H as (b & r2 & -> & Hb & H).
    apply accepts_nil in H. subst r2.
    apply conforms_string in Ha. destruct Ha as [key ->].
    apply conforms_string in Hb. destruct Hb as [val ->]. eauto.
  - intros (key & val & ->). reflexivity.
Qed.

(** X5: [setCollectionEnabled] accepts exactly the call without argument and
    the calls with one argument that is a boolean or [undefined]. *)
Theorem setCollectionEnabled_calls (args : list value) :
  call_accepted InstanaInterface "setCollectionEnabled" args = true
  <-> args = [] \/ args = [VUndefined] \/ exists b, args = [VBool b].
Proof.
  open_call. rewrite accepts_optional_last. split.
  - intros [->|(a & -> & [Ha| ->])]; auto.
    apply conforms_boolean in Ha. destruct Ha as [b ->]. eauto.
  - intros [->|[->|[b ->]]]; auto; right; eexists; split; eauto.
Qed.

(** X6: The three regex-pattern methods accept exactly the calls with one
    argument that is an array of strings: a single string, an array
    holding a non-string, and a missing argument are refused. *)
Theorem regex_methods_take_string_array (name : string) (args : list value) :
  In name regex_methods ->
  (call_accepted InstanaInterface name args = true
   <-> exists patterns : list string, args = [VArr (map VStr patterns)]).
Proof.
  intros Hname. cbn in Hname.
  destruct Hname as [<-|[<-|[<-|[]]]]; open_call;
    (split;
     [ intros H; apply accepts_required in H;
       destruct H as (a & r & -> & Ha & H);
       apply accepts_nil in H; subst r;
       apply conforms_string_array in Ha; destruct Ha as [l ->]; eauto
     | intros [l ->];
       cbn [accepts_args required par_type par_optional conforms];
       now rewrite strings_conform ]).
Qed.

(** ** Option records *)

(** X7: [SetupOptions] and [EventOptions] admit objects only.  An object is
    admitted exactly when each declared property it carries is [undefined]
    or of the declared type and, unless it has no property at all, it
    carries at least one declared property: one ill-typed property makes
    the record refused whatever the other properties are, and so does
    having only properties that are not declared. *)
Theorem option_records_characterised (ps : list property) (v : value) :
  ps = SetupOptions \/ ps = EventOptions ->
  (conforms (interface_type ps) v = true
   <-> exists props, v = VObj props
         /\ (forall p x, In p ps -> get_prop (p_name p) props = Some x ->
               conforms (p_type p) x = true \/ x = VUndefined)
         /\ (props = []
             \/ exists p x, In p ps /\ get_prop (p_name p) props = Some x)).
Proof.
  intros Hps.
  assert (Hopt : forall p, In p ps -> p_optional p = true).
  { destruct Hps as [->| ->];
      [exact SetupOptions_all_optional|exact EventOptions_all_optional]. }
  assert (Hweak : is_weak (map signature ps) = true).
  { destruct Hps as [->| ->]; reflexivity. }
  now apply weak_record_admits.
Qed.

Lemma get_prop_single (k name : string) (v : value) :
  get_prop k [(name, v)] = if String.eqb k name then Some v else None.
Proof. reflexivity. Qed.

Lemma single_property_record (ps : list property) (p : property) (v : value) :
  NoDup (map p_name ps) ->
  (forall q, In q ps -> p_optional q = true) ->
  In p ps ->
  (conforms (interface_type ps) (VObj [(p_name p, v)]) = true
   <-> conforms (p_type p) v = true \/ v = VUndefined).
Proof.
  intros Hnd Hopt Hp.
  assert (Hw : weak_ok (map signature ps) [(p_name p, v)] = true).
  { apply (weak_ok_record_of ps [p] (fun _ => v)).
    intros q [<-|[]]. exact Hp. }
  rewrite conforms_interface, Hw, andb_true_r.
  rewrite (properties_ok_iff ps _ Hopt). split.
  - intros H. apply (H p v Hp). rewrite get_prop_single.
    now rewrite String.eqb_refl.
  - intros H q x Hq. rewrite get_prop_single.
    destruct (String.eqb (p_name q) (p_name p)) eqn:E; [|discriminate].
    intros [= <-]. apply String.eqb_eq in E.
    assert (q = p) by (apply (names_identify ps); auto). now subst q.
Qed.

(** X8: A [setup] call whose options carry one declared property alone is
    accepted exactly when the value is [undefined] or of the declared type
    of that property. *)
Theorem setup_single_option_checked (key url : string) (p : property)
    (v : value) :
  In p SetupOptions ->
  (call_accepted InstanaInterface "setup"
     [VStr key; VStr url; VObj [(p_name p, v)]] = true
   <-> conforms (p_type p) v = true \/ v = VUndefined).
Proof.
  intros Hp. rewrite call_accepted_setup.
  cbn [is_undefined]. rewrite orb_false_r.
  apply single_property_record; auto.
  - apply SetupOptions_names_distinct.
  - apply SetupOptions_all_optional.
Qed.

(** X9: The enumerated options of [setup] are checked against their
    alternatives: [httpCaptureConfig] takes 'AUTO' and 'NONE' only,
    [suspendReporting] its four literals only, and [rateLimits] takes every
    number and nothing that is not a number (the name of a member given as
    a string is refused). *)
Theorem setup_enumerated_options_checked (key url : string) (v : value) :
  (call_accepted InstanaInterface "setup"
     [VStr key; VStr url; VObj [("httpCaptureConfig", v)]] = true
   <-> v = VStr "AUTO" \/ v = VStr "NONE" \/ v = VUndefined)
  /\ (call_accepted InstanaInterface "setup"
        [VStr key; VStr url; VObj [("suspendReporting", v)]] = true
      <-> v = VStr "NEVER" \/ v = VStr "LOW_BATTERY"
          \/ v = VStr "CELLULAR_CONNECTION"
          \/ v = VStr "LOW_BATTERY_OR_CELLULAR_CONNECTION"
          \/ v = VUndefined)
  /\ (call_accepted InstanaInterface "setup"
        [VStr key; VStr url; VObj [("rateLimits", v)]] = true
      <-> (exists x, v = VNum x) \/ v = VUndefined).
Proof.
  assert (Hsingle : forall p, In p SetupOptions ->
            (call_accepted InstanaInterface "setup"
               [VStr key; VStr url; VObj [(p_name p, v)]] = true
             <-> conforms (p_type p) v = true \/ v = VUndefined)).
  { intros p Hp. rewrite call_accepted_setup.
    cbn [is_undefined]. rewrite orb_false_r.
    apply single_property_record; auto.
    - apply SetupOptions_names_distinct.
    - apply SetupOptions_all_optional. }
  split; [|split].
  - rewrite (Hsingle (prop "httpCaptureConfig" true HTTPCaptureConfig
                        (Some (DefaultValue (VStr "AUTO")))))
      by (cbn; tauto).
    cbn [p_type prop]. unfold HTTPCaptureConfig.
    rewrite conforms_union, !conforms_literal. tauto.
  - rewrite (Hsingle (prop "suspendReporting" true SuspendReportingType
                        (Some (DefaultOn Android (VStr "LOW_BATTERY")))))
      by (cbn; tauto).
    cbn [p_type prop]. unfold SuspendReportingType.
    rewrite !conforms_union, !conforms_literal. tauto.
  - rewrite (Hsingle (prop "rateLimits" true (TUnion (TEnum RateLimits) TNumber)
                        (Some (DefaultMember RateLimits "DEFAULT_LIMITS" 0))))
      by (cbn; tauto).
    cbn [p_type prop].
    rewrite conforms_union, conforms_RateLimits, conforms_number.
    split; [|tauto].
    intros [[[->|[->| ->]]|H]|H]; eauto.
Qed.

Lemma string_values_only (props : list (string * value)) :
  forallb (fun kv => conforms TString (snd kv)) props = true
  <-> exists kvs : list (string * string), VObj props = string_record kvs.
Proof.
  unfold string_record.
  induction props as [|[k v] props IH]; cbn [forallb snd].
  - split; [exists []; reflexivity|reflexivity].
  - rewrite andb_true_iff, IH, conforms_string. split.
    + intros [[s ->] [kvs [= ->]]]. exists ((k, s) :: kvs). reflexivity.
    + intros [[|[k' s] kvs] H]; [discriminate H|].
      cbn in H. injection H as -> -> ->. split; eauto.
Qed.

(** X10: The [meta] of an event must be a plain object whose values are all
    strings: [reportEvent] accepts options carrying [meta] alone exactly
    when it is such an object or [undefined]. *)
Theorem reportEvent_meta_strings_only (eventName : string) (m : value) :
  call_accepted InstanaInterface "reportEvent"
    [VStr eventName; VObj [("meta", m)]] = true
  <-> (exists kvs : list (string * string), m = string_record kvs)
      \/ m = VUndefined.
Proof.
  rewrite call_accepted_reportEvent. cbn [is_undefined]. rewrite orb_false_r.
  rewrite (single_property_record EventOptions
             (prop "meta" true (TRecord TString) None)).
  - cbn [p_type prop]. split.
    + intros [H|H]; [left|now right].
      destruct m; cbn [conforms] in H; try discriminate.
      apply string_values_only in H. exact H.
    + intros [[kvs ->]|H]; [left|now right].
      unfold string_record. cbn [conforms].
      apply string_values_only. exists kvs. reflexivity.
  - apply EventOptions_names_distinct.
  - apply EventOptions_all_optional.
  - cbn. tauto.
Qed.

(** ** Documented defaults *)

(** X11: Each [@default] of [SetupOptions] agrees with the declaration it
    annotates: the default value is of the declared type of its property.
    Only [queryTrackedDomainList] documents no default, only
    [suspendReporting] has a default that exists on Android alone, and the
    default of [slowSendInterval] lies outside its own documented range. *)
Theorem documented_defaults_conform (p : property) :
  In p SetupOptions ->
  (p_default p = None <-> p_name p = "queryTrackedDomainList")
  /\ (forall d pl v, p_default p = Some d -> default_value pl d = Some v ->
        conforms (p_type p) v = true)
  /\ (forall d, p_default p = Some d ->
        default_value Android d <> None
        /\ (default_value IOS d = None <-> p_name p = "suspendReporting"))
  /\ (forall d r x, p_default p = Some d -> p_range p = Some r ->
        default_value Android d = Some (VNum x) -> in_range r x = false).
Proof.
  cbn [In SetupOptions].
  intros H;
    repeat (destruct H as [<-|H];
            [ split; [cbn; split; intros E; discriminate E|];
              split; [intros d pl v [= <-]; destruct pl; cbn;
                      intros E; try discriminate E;
                      injection E as <-; reflexivity|];
              split; [intros d [= <-]; cbn; split; [discriminate|];
                      split; intros E; first [discriminate E|reflexivity]|];
              intros d r x [= <-]; cbn [p_range prop];
              intros E; try discriminate E; injection E as <-;
              cbn; intros [= <-]; reflexivity |]).
  destruct H as [<-|[]].
  split; [cbn; split; reflexivity|].
  split; [intros d pl v E; discriminate E|].
  split; intros; discriminate.
Qed.

(** ** Arity *)

Lemma accepts_args_upper (ps : list parameter) (args : list value) :
  accepts_args ps args = true -> List.length args <= List.length ps.
Proof.
  revert args. induction ps as [|p ps IH]; intros [|a args]; cbn;
    try discriminate; try lia.
  intros H. apply andb_true_iff in H. destruct H as [_ H].
  specialize (IH args H). lia.
Qed.

Lemma accepts_none_all_optional (ps : list parameter) :
  accepts_args ps [] = true -> min_args ps = 0.
Proof.
  unfold min_args. induction ps as [|p ps IH]; cbn; [reflexivity|].
  intros H. apply andb_true_iff in H. destruct H as [Hp H].
  rewrite Hp. cbn. now apply IH.
Qed.

Lemma accepts_args_lower (ps : list parameter) (args : list value) :
  accepts_args ps args = true -> min_args ps <= List.length args.
Proof.
  revert ps. induction args as [|a args IH]; intros ps H.
  - rewrite (accepts_none_all_optional ps H). lia.
  - destruct ps as [|p ps]; [discriminate H|].
    cbn [accepts_args] in H. apply andb_true_iff in H. destruct H as [_ H].
    specialize (IH ps H). unfold min_args in *. cbn [filter List.length].
    destruct (negb (par_optional p)); cbn [List.length]; lia.
Qed.

(** X12: An accepted call gives every required argument and none beyond the
    declared parameters.  For the declared methods that is: never more than
    three arguments, at least two for [setup] and [setMeta], and none at
    all for [getSessionID], [getViewName] and [getCollectionEnabled]. *)
Theorem accepted_calls_respect_arity (m : method) (args : list value) :
  In m InstanaInterface ->
  accepts_args (m_params m) args = true ->
  min_args (m_params m) <= List.length args <= List.length (m_params m)
  /\ List.length args <= 3
  /\ (m_name m = "setup" \/ m_name m = "setMeta" -> 2 <= List.length args)
  /\ (m_params m = [] -> args = []).
Proof.
  intros Hin Hacc.
  pose proof (accepts_args_upper _ _ Hacc) as Hup.
  pose proof (accepts_args_lower _ _ Hacc) as Hlo.
  split; [lia|].
  assert (Hmax : List.length (m_params m) <= 3
                 /\ (m_name m = "setup" \/ m_name m = "setMeta" ->
                     2 <= min_args (m_params m))).
  { revert Hin. clear. cbn [In InstanaInterface].
    intros H;
      repeat (destruct H as [<-|H];
              [cbn; split; [lia|];
               intros [E|E]; first [discriminate E|lia]|]);
      destruct H. }
  destruct Hmax as [Hmax Htwo].
  split; [lia|]. split.
  - intros Hn. specialize (Htwo Hn). lia.
  - intros Hnil. rewrite Hnil in Hacc. now apply accepts_nil.
Qed.

(** ** Names *)

Lemma find_property_In (name : string) (ps : list property) (p : property) :
  find_property name ps = Some p -> In p ps /\ p_name p = name.
Proof.
  induction ps as [|a ps IH]; cbn; [discriminate|].
  destruct (String.eqb name (p_name a)) eqn:E.
  - intros [= <-]. apply String.eqb_eq in E. auto.
  - intros H. destruct (IH H). auto.
Qed.

(** X13: No member of [InstanaInterface] is declared twice (there are no
    overloads) and no property name is repeated in [SetupOptions] or
    [EventOptions]: looking a declaration up by its name gives back that
    declaration, and a name that is not declared is not found. *)
Theorem declared_names_unambiguous :
  (NoDup (map m_name InstanaInterface)
   /\ forall m, In m InstanaInterface ->
        find_method (m_name m) InstanaInterface = Some m)
  /\ (forall ps, ps = SetupOptions \/ ps = EventOptions ->
        NoDup (map p_name ps)
        /\ forall p, In p ps -> find_property (p_name p) ps = Some p)
  /\ (forall name, ~ In name (map m_name InstanaInterface) ->
        find_method name InstanaInterface = None
        /\ forall args, call_accepted InstanaInterface name args = false).
Proof.
  split; [split|split].
  - cbn. repeat (constructor; [cbn; intuition discriminate|]). constructor.
  - exact find_method_declared.
  - intros ps [->| ->].
    + split; [exact SetupOptions_names_distinct|].
      cbn [In SetupOptions].
      intros p H; repeat (destruct H as [<-|H]; [reflexivity|]); destruct H.
    + split; [exact EventOptions_names_distinct|].
      cbn [In EventOptions].
      intros p H; repeat (destruct H as [<-|H]; [reflexivity|]); destruct H.
  - intros name Hnot.
    assert (E : find_method name InstanaInterface = None).
    { destruct (find_method name InstanaInterface) as [m|] eqn:E;
        [|reflexivity].
      apply find_method_In in E. destruct E as [Hin <-].
      exfalso. apply Hnot. now apply in_map. }
    split; [exact E|]. intros args. unfold call_accepted. now rewrite E.
Qed.

(** ** The iOS-only getters *)

Lemma conforms_promise_boolean (out : value) :
  conforms (TPromise TBoolean) out = true ->
  (exists b, out = VResolved (VBool b)) \/ (exists reason, out = VRejected reason).
Proof.
  destruct out as [| | | | | |r|reason]; cbn [conforms]; try discriminate.
  - destruct r; try discriminate. intros _. left. eauto.
  - intros _. right. eauto.
Qed.

Lemma present_member_result {State : Type} (I : list method)
    (impl : implementation State) (name : string) (m : method)
    (f : native_method State) (args : list value) (st : State) :
  implements I impl -> find_method name I = Some m -> impl name = Some f ->
  accepts_args (m_params m) args = true ->
  result_ok (m_returns m) (snd (f args st)) = true.
Proof.
  intros Himpl Hfind Hf Hargs.
  apply find_method_In in Hfind. destruct Hfind as [Hin <-].
  specialize (Himpl m Hin). rewrite Hf in Himpl. now apply Himpl.
Qed.

(** X14: Where an object providing the interface has the optional getters,
    [getViewName] settles with a string or rejects and
    [getCollectionEnabled] settles with a boolean or rejects.  Their plain
    call is refused; the guarded call is accepted exactly without
    arguments. *)
Theorem ios_getters_settle_typed {State : Type} (impl : implementation State)
    (st : State) :
  implements InstanaInterface impl ->
  (forall f, impl "getViewName" = Some f ->
     (exists s, snd (f [] st) = VResolved (VStr s))
     \/ (exists reason, snd (f [] st) = VRejected reason))
  /\ (forall f, impl "getCollectionEnabled" = Some f ->
        (exists b, snd (f [] st) = VResolved (VBool b))
        \/ (exists reason, snd (f [] st) = VRejected reason))
  /\ (forall name args, In name ios_only_methods ->
        call_accepted InstanaInterface name args = false
        /\ (guarded_call_accepted InstanaInterface name args = true
            <-> args = [])).
Proof.
  intros Himpl. split; [|split].
  - intros f Hf. apply conforms_promise_string.
    exact (present_member_result InstanaInterface impl "getViewName" _ f []
             st Himpl eq_refl Hf eq_refl).
  - intros f Hf. apply conforms_promise_boolean.
    exact (present_member_result InstanaInterface impl "getCollectionEnabled"
             _ f [] st Himpl eq_refl Hf eq_refl).
  - intros name args Hname. cbn in Hname.
    destruct Hname as [<-|[<-|[]]]; (split; [reflexivity|]);
      unfold guarded_call_accepted;
      cbn [find_method InstanaInterface String.eqb Ascii.eqb Bool.eqb
           m_name m_params];
      apply accepts_nil.
Qed.

(** ** Instances of the further properties *)

(** [setView("Home")] is accepted. *)
Lemma string_setters_take_one_string_witness :
  In "setView" string_setters
  /\ call_accepted InstanaInterface "setView" [VStr "Home"] = true.
Proof.
  assert (h : In "setView" string_setters) by (cbn; tauto).
  split; [exact h|].
  apply (string_setters_take_one_string "setView" [VStr "Home"] h).
  exists "Home". reflexivity.
Defined.

(** [setCaptureHeadersByRegex(["X-.*"])] is accepted. *)
Lemma regex_methods_take_string_array_witness :
  In "setCaptureHeadersByRegex" regex_methods
  /\ call_accepted InstanaInterface "setCaptureHeadersByRegex"
       [VArr [VStr "X-.*"]] = true.
Proof.
  assert (h : In "setCaptureHeadersByRegex" regex_methods) by (cbn; tauto).
  split; [exact h|].
  apply (regex_methods_take_string_array "setCaptureHeadersByRegex"
           [VArr [VStr "X-.*"]] h).
  exists ["X-.*"]. reflexivity.
Defined.

(** [{ nonsense: true }] carries no declared property and is not an
    [EventOptions]. *)
Lemma option_records_characterised_witness :
  (EventOptions = SetupOptions \/ EventOptions = EventOptions)
  /\ conforms (interface_type EventOptions)
       (VObj [("nonsense", VBool true)]) <> true.
Proof.
  assert (h : EventOptions = SetupOptions \/ EventOptions = EventOptions)
    by (right; reflexivity).
  split; [exact h|].
  intros H.
  apply (option_records_characterised EventOptions
           (VObj [("nonsense", VBool true)]) h) in H.
  destruct H as (props & [= <-] & _ & [E|(p & x & Hin & E)]);
    [discriminate E|].
  cbn in Hin.
  repeat (destruct Hin as [<-|Hin]; [discriminate E|]). destruct Hin.
Defined.

(** [setup(key, url, { trustDeviceTiming: "yes" })] is refused. *)
Lemma setup_single_option_checked_witness :
  In (prop "trustDeviceTiming" true TBoolean
        (Some (DefaultValue (VBool false)))) SetupOptions
  /\ call_accepted InstanaInterface "setup"
       [VStr "key"; VStr "https://example.test";
        VObj [("trustDeviceTiming", VStr "yes")]] <> true.
Proof.
  assert (h : In (prop "trustDeviceTiming" true TBoolean
                    (Some (DefaultValue (VBool false)))) SetupOptions)
    by (cbn; tauto).
  split; [exact h|].
  intros H.
  apply (setup_single_option_checked "key" "https://example.test" _
           (VStr "yes") h) in H.
  destruct H as [E|E]; discriminate E.
Defined.

(** The default of [rateLimits] is a [RateLimits | number]. *)
Lemma documented_defaults_conform_witness :
  In (prop "rateLimits" true (TUnion (TEnum RateLimits) TNumber)
        (Some (DefaultMember RateLimits "DEFAULT_LIMITS" 0))) SetupOptions
  /\ conforms (TUnion (TEnum RateLimits) TNumber) (VNum (number_of_Z 0)) = true.
Proof.
  assert (h : In (prop "rateLimits" true (TUnion (TEnum RateLimits) TNumber)
                    (Some (DefaultMember RateLimits "DEFAULT_LIMITS" 0)))
                SetupOptions) by (cbn; tauto).
  split; [exact h|].
  destruct (documented_defaults_conform _ h) as (_ & H & _).
  exact (H _ IOS _ eq_refl eq_refl).
Defined.

(** [setMeta("plan", "pro")] gives two arguments. *)
Lemma accepted_calls_respect_arity_witness :
  In {| m_name := "setMeta"; m_optional := false;
        m_params := [ required "key" TString; required "value" TString ];
        m_returns := TVoid; m_resolves_to := None; m_only := None |}
     InstanaInterface
  /\ accepts_args [ required "key" TString; required "value" TString ]
       [VStr "plan"; VStr "pro"] = true
  /\ 2 <= List.length [VStr "plan"; VStr "pro"].
Proof.
  assert (h1 : In {| m_name := "setMeta"; m_optional := false;
                     m_params := [ required "key" TString;
                                   required "value" TString ];
                     m_returns := TVoid; m_resolves_to := None;
                     m_only := None |} InstanaInterface) by (cbn; tauto).
  assert (h2 : accepts_args [ required "key" TString; required "value" TString ]
                 [VStr "plan"; VStr "pro"] = true) by reflexivity.
  split; [exact h1|split; [exact h2|]].
  destruct (accepted_calls_respect_arity _ [VStr "plan"; VStr "pro"] h1 h2)
    as (_ & _ & H & _).
  apply H. right. reflexivity.
Defined.

(** [getCollectionEnabled] on the iOS backend. *)
Lemma ios_getters_settle_typed_witness :
  implements InstanaInterface (native IOS groups_balanced)
  /\ exists f, native IOS groups_balanced "getCollectionEnabled" = Some f
       /\ ((exists b, snd (f [] fresh_state) = VResolved (VBool b))
           \/ (exists reason, snd (f [] fresh_state) = VRejected reason)).
Proof.
  assert (h := native_implements IOS groups_balanced).
  split; [exact h|].
  destruct (ios_getters_settle_typed (native IOS groups_balanced)
              fresh_state h) as (_ & H & _).
  eexists. split; [reflexivity|]. apply H. reflexivity.
Defined.
